(** * XmrSigner QR decoding core: a shallow embedding

    This development embeds the QR decoding module
    [src/seedsigner/models/decode_qr.py] and the constructor of the seed
    model [src/xmrsigner/models/seed.py] in Rocq, and proves properties of
    the decoders, the reassemblers and the session facade.

    Conventions.
    - A Python [str] is a [string] whose characters are code points below
      256; [bytes] are lists of integers in [0, 256).
    - A Python exception is a value of [exn]; a function that may raise
      returns a [res].  A method of a mutable object is a function from the
      object to a result and the object afterwards: what the method wrote
      before it raised stays written, as in Python.
    - Collaborators that live outside the repository (the PSBT parser, the
      JSON parser, the UR decoder, the mnemonic validator, the constants of
      the settings module) are Variables of a Section. *)

From Stdlib Require Import ZArith String Ascii List Bool Lia.
From stdpp Require Import base option list gmap strings fin_maps pretty.

Local Open Scope string_scope.
Local Open Scope Z_scope.

(** ** Exceptions and results *)

Inductive exn : Type :=
| Exception (msg : string)
| InvalidSeedException
| NoSeedBytesException
| TypeError
| IndexError
| ValueError
| KeyError
| UnicodeEncodeError
| binascii_Error.

Inductive res (A : Type) : Type :=
| Ok (a : A)
| Raise (e : exn).
Arguments Ok {A} a.
Arguments Raise {A} e.

#[global] Instance res_ret : MRet res := fun A a => Ok a.
#[global] Instance res_bind : MBind res := fun A B f m =>
  match m with
  | Ok a => f a
  | Raise e => Raise e
  end.

#[global] Instance res_fmap : FMap res := fun A B f m =>
  match m with
  | Ok a => Ok (f a)
  | Raise e => Raise e
  end.

(** [try: ... except Exception: handler] around a pure computation. *)
Definition try_except {A} (m : res A) (handler : exn -> A) : A :=
  match m with
  | Ok a => a
  | Raise e => handler e
  end.

(** A method of an object of type [S]: the result (or the exception) and
    the object after the call. *)
Definition M (S A : Type) : Type := S -> res A * S.

#[global] Instance M_ret {S} : MRet (M S) := fun A a s => (Ok a, s).
#[global] Instance M_bind {S} : MBind (M S) := fun A B f m s =>
  match m s with
  | (Ok a, s') => f a s'
  | (Raise e, s') => (Raise e, s')
  end.

Definition get {S} : M S S := fun s => (Ok s, s).
Definition put {S} (s : S) : M S unit := fun _ => (Ok tt, s).
Definition modify {S} (f : S -> S) : M S unit := fun s => (Ok tt, f s).
Definition raise {S A} (e : exn) : M S A := fun s => (Raise e, s).
Definition lift {S A} (r : res A) : M S A := fun s => (r, s).

(** [try: body except Exception: handler], where the handler still sees
    what the body wrote. *)
Definition try_catch {S A} (body : M S A) (handler : exn -> M S A) : M S A :=
  fun s =>
    match body s with
    | (Ok a, s') => (Ok a, s')
    | (Raise e, s') => handler e s'
    end.

(** ** Characters *)

Definition bytes : Type := list Z.

Definition ord (c : ascii) : Z := Z.of_N (N_of_ascii c).
Definition chr (z : Z) : ascii := ascii_of_N (Z.to_N z).

Definition LF : ascii := chr 10.

Definition in_range (lo hi : Z) (c : ascii) : bool :=
  (lo <=? ord c) && (ord c <=? hi).

(** [\d] on code points below 256. *)
Definition is_digit (c : ascii) : bool := in_range 48 57 c.
Definition is_upper (c : ascii) : bool := in_range 65 90 c.
Definition is_lower (c : ascii) : bool := in_range 97 122 c.

(** Simple case folding, as [re.IGNORECASE] does it; below 256 only the
    ASCII letters fold onto ASCII letters. *)
Definition lower (c : ascii) : ascii :=
  if is_upper c then chr (ord c + 32) else c.

Definition eqb_ci (a b : ascii) : bool := Ascii.eqb (lower a) (lower b).

(** [str.isspace] on code points below 256: what [str.strip()] and [int()]
    skip. *)
Definition py_isspace (c : ascii) : bool :=
  in_range 9 13 c || in_range 28 32 c || (ord c =? 133) || (ord c =? 160).

(** ** Strings *)

Fixpoint all_chars (p : ascii -> bool) (s : string) : bool :=
  match s with
  | EmptyString => true
  | String c r => p c && all_chars p r
  end.

(** The longest prefix of characters in a class, and the rest: a greedy
    [[class]*]. *)
Fixpoint span (p : ascii -> bool) (s : string) : string * string :=
  match s with
  | EmptyString => (EmptyString, EmptyString)
  | String c r =>
      if p c then let '(a, b) := span p r in (String c a, b)
      else (EmptyString, s)
  end.

Fixpoint drop_while (p : ascii -> bool) (s : string) : string :=
  match s with
  | EmptyString => EmptyString
  | String c r => if p c then drop_while p r else s
  end.

Fixpoint string_rev_app (s acc : string) : string :=
  match s with
  | EmptyString => acc
  | String c r => string_rev_app r (String c acc)
  end.
Definition string_rev (s : string) : string := string_rev_app s EmptyString.

(** [s.strip()] *)
Definition py_strip (s : string) : string :=
  string_rev (drop_while py_isspace (string_rev (drop_while py_isspace s))).

(** [s.split(sep)] for a one-character separator: never the empty list. *)
Fixpoint py_split (sep : ascii) (s : string) : list string :=
  match s with
  | EmptyString => [EmptyString]
  | String c r =>
      if Ascii.eqb c sep then EmptyString :: py_split sep r
      else match py_split sep r with
           | w :: ws => String c w :: ws
           | [] => [String c EmptyString]
           end
  end.

(** [s.split()]: the maximal runs of non-space characters. *)
Fixpoint py_split_ws_go (cur : option string) (s : string) : list string :=
  match s with
  | EmptyString => match cur with Some w => [string_rev w] | None => [] end
  | String c r =>
      if py_isspace c
      then match cur with
           | Some w => string_rev w :: py_split_ws_go None r
           | None => py_split_ws_go None r
           end
      else py_split_ws_go (Some (String c (default EmptyString cur))) r
  end.
Definition py_split_ws (s : string) : list string := py_split_ws_go None s.

(** [s.replace(old, new)] for a one-character [old]. *)
Fixpoint py_replace (old : ascii) (new : string) (s : string) : string :=
  match s with
  | EmptyString => EmptyString
  | String c r =>
      if Ascii.eqb c old then new ++ py_replace old new r
      else String c (py_replace old new r)
  end.

(** [sep.join(ws)] *)
Definition py_join (sep : string) (ws : list string) : string :=
  String.concat sep ws.

(** [s[a:b]] for [0 <= a <= b]. *)
Definition py_slice (a b : nat) (s : string) : string :=
  substring a (b - a)%nat s.

(** [sub in s] *)
Fixpoint contains (sub s : string) : bool :=
  String.prefix sub s ||
  match s with
  | EmptyString => false
  | String _ r => contains sub r
  end.

(** [re.search('^lit', s, re.IGNORECASE)] for a literal [lit]. *)
Fixpoint prefix_ci (lit s : string) : bool :=
  match lit, s with
  | EmptyString, _ => true
  | String a l, String b r => eqb_ci a b && prefix_ci l r
  | String _ _, EmptyString => false
  end.

Fixpoint contains_ci (sub s : string) : bool :=
  prefix_ci sub s ||
  match s with
  | EmptyString => false
  | String _ r => contains_ci sub r
  end.

(** [x in l] on a list of strings. *)
Definition py_in (x : string) (l : list string) : bool :=
  existsb (String.eqb x) l.

(** ** Lists: indexing as Python does it *)

(** The position a Python index denotes, when it is in range: a negative
    index counts from the end. *)
Definition py_position (len : nat) (i : Z) : res nat :=
  let n := Z.of_nat len in
  let j := if i <? 0 then i + n else i in
  if (j <? 0) || (n <=? j) then Raise IndexError else Ok (Z.to_nat j).

(** [l[i]] *)
Definition py_getitem {A} (l : list A) (i : Z) : res A :=
  j ← py_position (length l) i;
  match l !! j with
  | Some x => Ok x
  | None => Raise IndexError
  end.

(** [l[i] = x] *)
Definition py_setitem {A} (l : list A) (i : Z) (x : A) : res (list A) :=
  j ← py_position (length l) i;
  Ok (<[j := x]> l).

(** [l.index(x)] on a list of strings: the first position, or ValueError. *)
Fixpoint py_list_index (x : string) (l : list string) : res Z :=
  match l with
  | [] => Raise ValueError
  | y :: r => if String.eqb y x then Ok 0 else i ← py_list_index x r; Ok (i + 1)
  end.

(** ** [int(s)] *)

Definition digit_value (c : ascii) : Z := ord c - 48.

(** The digits of a decimal literal after the first one: a digit, or one
    underscore followed by a digit. *)
Fixpoint int_digits (acc : Z) (s : string) : res Z :=
  match s with
  | EmptyString => Ok acc
  | String c r =>
      if is_digit c then int_digits (acc * 10 + digit_value c) r
      else if Ascii.eqb c "_" then
        match r with
        | String d r' =>
            if is_digit d then int_digits (acc * 10 + digit_value d) r'
            else Raise ValueError
        | EmptyString => Raise ValueError
        end
      else Raise ValueError
  end.

Definition int_unsigned (s : string) : res Z :=
  match s with
  | String c r => if is_digit c then int_digits (digit_value c) r else Raise ValueError
  | EmptyString => Raise ValueError
  end.

(** [int(s)] in base 10: surrounding white space, an optional sign, digits
    with single underscores between them. *)
Definition py_int (s : string) : res Z :=
  match py_strip s with
  | String "+" r => int_unsigned r
  | String "-" r => n ← int_unsigned r; Ok (- n)
  | t => int_unsigned t
  end.

(** [s.encode('ascii')] *)
Fixpoint encode_ascii (s : string) : res bytes :=
  match s with
  | EmptyString => Ok []
  | String c r =>
      if ord c <? 128 then v ← encode_ascii r; Ok (ord c :: v)
      else Raise UnicodeEncodeError
  end.

(** [bytes.find] of a one-byte needle: the first position, or -1. *)
Fixpoint bytes_find (c : Z) (chars : bytes) : Z :=
  match chars with
  | [] => -1
  | d :: r => if d =? c then 0 else
              let i := bytes_find c r in if i =? -1 then -1 else i + 1
  end.

(** ** Base64, as [base64.b64encode], [base64.b64decode] and
    [binascii.a2b_base64] of the Python library do it *)

Definition b64_alphabet : string :=
  "ABCDEFGHIJKLMNOPQRSTUVWXYZabcdefghijklmnopqrstuvwxyz0123456789+/".

Definition b64_table : list ascii := list_ascii_of_string b64_alphabet.

Definition b64_char (i : Z) : ascii :=
  nth (Z.to_nat (Z.land i 63)) b64_table "A"%char.

Fixpoint b64_find (c : ascii) (tbl : list ascii) : option Z :=
  match tbl with
  | [] => None
  | d :: r => if Ascii.eqb d c then Some 0 else (fun i => i + 1) <$> b64_find c r
  end.

Definition b64_index (c : ascii) : option Z := b64_find c b64_table.

(** Three bytes give four characters; one or two trailing bytes are padded
    with [=]. *)
Fixpoint b64encode (data : bytes) : string :=
  match data with
  | [] => ""
  | [a] =>
      String (b64_char (Z.shiftr a 2))
        (String (b64_char (Z.shiftl (Z.land a 3) 4)) "==")
  | [a; b] =>
      String (b64_char (Z.shiftr a 2))
        (String (b64_char (Z.lor (Z.shiftl (Z.land a 3) 4) (Z.shiftr b 4)))
           (String (b64_char (Z.shiftl (Z.land b 15) 2)) "="))
  | a :: b :: c :: r =>
      String (b64_char (Z.shiftr a 2))
        (String (b64_char (Z.lor (Z.shiftl (Z.land a 3) 4) (Z.shiftr b 4)))
           (String (b64_char (Z.lor (Z.shiftl (Z.land b 15) 2) (Z.shiftr c 6)))
              (String (b64_char (Z.land c 63)) (b64encode r))))
  end.

(** The decoder state of [a2b_base64]: position in the current quad, the
    bits left over from the previous character, the pad characters seen in
    a row, and the bytes written so far (in reverse). *)
Record a2b_state := {
  quad_pos : Z;
  leftchar : Z;
  pads : Z;
  bin_data : list Z
}.

(** The non-strict decoder: characters outside the alphabet are skipped,
    a complete pad sequence ends the input, and data that stops inside a
    quad is an error. *)
Fixpoint a2b_loop (s : string) (st : a2b_state) : res bytes :=
  match s with
  | EmptyString =>
      if quad_pos st =? 0 then Ok (rev (bin_data st)) else Raise binascii_Error
  | String c r =>
      if Ascii.eqb c "=" then
        if (2 <=? quad_pos st) && (4 <=? quad_pos st + (pads st + 1))
        then Ok (rev (bin_data st))
        else a2b_loop r
               (if 2 <=? quad_pos st
                then {| quad_pos := quad_pos st; leftchar := leftchar st;
                        pads := pads st + 1; bin_data := bin_data st |}
                else st)
      else
        match b64_index c with
        | None => a2b_loop r st
        | Some v =>
            a2b_loop r
              (if quad_pos st =? 0 then
                 {| quad_pos := 1; leftchar := v; pads := 0;
                    bin_data := bin_data st |}
               else if quad_pos st =? 1 then
                 {| quad_pos := 2; leftchar := Z.land v 15; pads := 0;
                    bin_data :=
                      Z.lor (Z.shiftl (leftchar st) 2) (Z.shiftr v 4) :: bin_data st |}
               else if quad_pos st =? 2 then
                 {| quad_pos := 3; leftchar := Z.land v 3; pads := 0;
                    bin_data :=
                      Z.lor (Z.shiftl (leftchar st) 4) (Z.shiftr v 2) :: bin_data st |}
               else
                 {| quad_pos := 0; leftchar := 0; pads := 0;
                    bin_data := Z.lor (Z.shiftl (leftchar st) 6) v :: bin_data st |})
        end
  end.

(** [binascii.a2b_base64(s)] on a [str]: only ASCII is accepted. *)
Definition a2b_base64 (s : string) : res bytes :=
  _ ← match encode_ascii s with
      | Ok v => Ok v
      | Raise _ => Raise ValueError
      end;
  a2b_loop s {| quad_pos := 0; leftchar := 0; pads := 0; bin_data := [] |}.

(** [base64.b64decode(s)] calls [binascii.a2b_base64] without validation. *)
Definition b64decode (s : string) : res bytes := a2b_base64 s.

(** [bytes == bytes] *)
Definition bytes_eqb (a b : bytes) : bool := bool_decide (a = b).

(** ** The enumerations *)

(** Modelled from the spec: the enumeration [QRType] is declared outside
    the files at hand; its members are the names the decoder uses, taken
    to be pairwise distinct. *)
Inductive QRType : Type :=
| PSBTUR2 | PSBTSPECTER | PSBTURLEGACY | PSBTBASE64 | PSBTBASE43
| SEEDSSQR | SEEDUR2 | SEEDMNEMONIC | SEED4LETTERMNEMONIC
| SETTINGS | JSON
| BITCOINADDRESSQR
| SPECTERWALLETQR | URWALLETQR | BLUEWALLETQR
| INVALID.

#[global] Instance QRType_eq_dec : EqDecision QRType.
Proof. solve_decision. Defined.

(** [class DecodeQRStatus(IntEnum)] *)
Inductive DecodeQRStatus : Type :=
| PART_COMPLETE | PART_EXISTING | COMPLETE | FALSE | INVALID_STATUS.

#[global] Instance DecodeQRStatus_eq_dec : EqDecision DecodeQRStatus.
Proof. solve_decision. Defined.

Definition DecodeQRStatus_value (st : DecodeQRStatus) : Z :=
  match st with
  | PART_COMPLETE => 1
  | PART_EXISTING => 2
  | COMPLETE => 3
  | FALSE => 4
  | INVALID_STATUS => 5
  end.

(** ** The regular expressions of the decoder

    Each pattern of the source is written out as the matcher the
    backtracking engine amounts to on it.  None of the patterns leaves the
    engine a choice: a greedy class repetition is followed by a character
    outside the class (or by the end), so giving characters back never
    helps. *)

Definition DQ : ascii := chr 34.

(** [$]: the end of the string, or just before a final newline. *)
Definition at_end (s : string) : bool :=
  match s with
  | EmptyString => true
  | String c EmptyString => Ascii.eqb c LF
  | _ => false
  end.

Definition nonempty (s : string) : bool :=
  match s with EmptyString => false | String _ _ => true end.

(** [^p(\d+)of(\d+) ] with [re.IGNORECASE]: groups 1 and 2, and the text
    after the blank. *)
Definition match_pXofY (s : string) : option (string * string * string) :=
  match s with
  | String c r =>
      if eqb_ci c "p" then
        let '(d1, r1) := span is_digit r in
        match r1 with
        | String o (String f r2) =>
            if nonempty d1 && eqb_ci o "o" && eqb_ci f "f" then
              let '(d2, r3) := span is_digit r2 in
              match r3 with
              | String b r4 =>
                  if nonempty d2 && Ascii.eqb b " " then Some (d1, d2, r4)
                  else None
              | EmptyString => None
              end
            else None
        | _ => None
        end
      else None
  | EmptyString => None
  end.

(** The class [[A-Za-z0-9+\/=]]. *)
Definition is_b64_or_pad (c : ascii) : bool :=
  is_upper c || is_lower c || is_digit c ||
  Ascii.eqb c "+" || Ascii.eqb c "/" || Ascii.eqb c "=".

(** [^p(\d+)of(\d+) ([A-Za-z0-9+\/=]+$)] with [re.IGNORECASE]: groups 1, 2
    and 3. *)
Definition match_specter_psbt (s : string) : option (string * string * string) :=
  '(d1, d2, r) ← match_pXofY s;
  let '(body, e) := span is_b64_or_pad r in
  if nonempty body && at_end e then Some (d1, d2, body) else None.

(** [^p(\d+)of(\d+) (.+$)] with [re.IGNORECASE]: group 3.  The dot takes
    everything up to a newline. *)
Definition match_pXofY_payload (s : string) : option string :=
  '(_, _, r) ← match_pXofY s;
  let '(body, e) := span (fun c => negb (Ascii.eqb c LF)) r in
  if nonempty body && at_end e then Some body else None.

(** [^UR:BYTES/(\d+)OF(\d+)] with [re.IGNORECASE]: groups 1 and 2. *)
Definition match_ur_bytes_XofY (s : string) : option (string * string) :=
  if prefix_ci "UR:BYTES/" s then
    let '(d1, r1) := span is_digit (substring 9 (String.length s - 9) s) in
    match r1 with
    | String o (String f r2) =>
        if nonempty d1 && eqb_ci o "o" && eqb_ci f "f" then
          let '(d2, _) := span is_digit r2 in
          if nonempty d2 then Some (d1, d2) else None
        else None
    | _ => None
    end
  else None.

(** [^\{\"label\".*\"descriptor\"\:.*] with [re.IGNORECASE], on a text
    without newlines (the caller removed them), so the dot takes any
    character. *)
Definition match_label_descriptor (desc_str : string) : bool :=
  let label := String "{" (String DQ ("label" ++ String DQ "")) in
  let descriptor := String DQ ("descriptor" ++ String DQ ":") in
  prefix_ci label desc_str &&
  contains_ci descriptor (substring 8 (String.length desc_str - 8) desc_str).

(** [\d{48,96}] anywhere in the text. *)
Fixpoint search_digits_48 (s : string) : bool :=
  (48 <=? String.length (fst (span is_digit s)))%nat ||
  match s with
  | EmptyString => false
  | String _ r => search_digits_48 r
  end.

(** The class [[a-zA-HJ-NP-Z0-9]]. *)
Definition is_addr_body (c : ascii) : bool :=
  is_lower c || in_range 65 72 c || in_range 74 78 c || in_range 80 90 c ||
  is_digit c.

(** The alternatives of [(bc1|tb1|[123]|[mn])] that match at the head of
    the text, in the order the engine tries them: the prefix and the text
    after it. *)
Definition addr_prefixes (s : string) : list (string * string) :=
  (if String.prefix "bc1" s then [("bc1", substring 3 (String.length s - 3) s)] else []) ++
  (if String.prefix "tb1" s then [("tb1", substring 3 (String.length s - 3) s)] else []) ++
  match s with
  | String c r =>
      (if Ascii.eqb c "1" || Ascii.eqb c "2" || Ascii.eqb c "3"
       then [(String c "", r)] else []) ++
      (if Ascii.eqb c "m" || Ascii.eqb c "n" then [(String c "", r)] else [])
  | EmptyString => []
  end.

(** At most [n] leading characters of a class, and the rest: a greedy
    [[class]{_,n}]. *)
Fixpoint span_max (n : nat) (p : ascii -> bool) (s : string) : string * string :=
  match n, s with
  | S n', String c r =>
      if p c then let '(a, b) := span_max n' p r in (String c a, b)
      else (EmptyString, s)
  | _, _ => (EmptyString, s)
  end.

(** The first alternative whose body [[a-zA-HJ-NP-Z0-9]{25,62}] matches,
    with what [after] demands of the text behind the body: groups 1 and 2.
    The body is greedy; a shorter body would be followed by a body
    character, which neither ends the text nor is needed by the unanchored
    pattern. *)
Fixpoint first_address (after : string -> bool) (alts : list (string * string))
  : option (string * string) :=
  match alts with
  | [] => None
  | (p, r) :: alts' =>
      let '(body, e) := span_max 62 is_addr_body r in
      if (25 <=? String.length body)%nat && after e then Some (p ++ body, p)
      else first_address after alts'
  end.

(** [re.search(r'((bc1|tb1|[123]|[mn])[a-zA-HJ-NP-Z0-9]{25,62})', s)]:
    the leftmost match; groups 1 and 2. *)
Fixpoint search_address (s : string) : option (string * string) :=
  match first_address (fun _ => true) (addr_prefixes s) with
  | Some m => Some m
  | None =>
      match s with
      | EmptyString => None
      | String _ r => search_address r
      end
  end.

(** [re.search(r'^((bc1|tb1|[123]|[mn])[a-zA-HJ-NP-Z0-9]{25,62})$', s)]:
    groups 1 and 2. *)
Definition match_address (s : string) : option (string * string) :=
  first_address at_end (addr_prefixes s).

(** ** Base43 *)

Definition base43_chars : string := "0123456789ABCDEFGHIJKLMNOPQRSTUVWXYZ$*+-./:".

Definition base43_table : bytes :=
  map ord (list_ascii_of_string base43_chars).

(** [for c in v[::-1]: ...]: the digits are summed with rising powers of
    the base, from the last character to the first. *)
Fixpoint base43_accumulate (chars v_reversed : bytes) (long_value power_of_base : Z)
  : res Z :=
  match v_reversed with
  | [] => Ok long_value
  | c :: r =>
      let digit := bytes_find c chars in
      if digit =? -1 then
        Raise (Exception ("Forbidden character " ++ pretty c ++ " for base 43"))
      else
        base43_accumulate chars r (long_value + digit * power_of_base)
          (power_of_base * 43)
  end.

(** [while long_value >= 256: div, mod = divmod(long_value, 256); ...]:
    the loop appends the low byte and goes on with the quotient.  The
    fuel bounds the number of rounds; [base43_while_fuel] has enough for
    the loop to leave through its own test (lemma [base43_while_exits]). *)
Fixpoint base43_while (fuel : nat) (long_value : Z) (result : bytes) : Z * bytes :=
  if long_value <? 256 then (long_value, result)
  else
    match fuel with
    | O => (long_value, result)
    | S fuel' =>
        base43_while fuel' (long_value / 256) (result ++ [long_value mod 256])%list
    end.

Definition base43_while_fuel (long_value : Z) : nat :=
  Z.to_nat (Z.log2 long_value).

(** [for c in v: if c == chars[0]: nPad += 1 else: break] *)
Fixpoint base43_nPad (zero : Z) (v : bytes) : nat :=
  match v with
  | c :: r => if c =? zero then S (base43_nPad zero r) else O
  | [] => O
  end.

(** [DecodeQR.base43Decode(s)] for a [str] argument. *)
Definition base43Decode (s : string) : res bytes :=
  let chars := base43_table in
  v ← encode_ascii s;
  long_value ← base43_accumulate chars (rev v) 0 1;
  let '(long_value, result) :=
    base43_while (base43_while_fuel long_value) long_value [] in
  let result := (result ++ [long_value])%list in
  let nPad := base43_nPad (nth 0 chars 0) v in
  let result := (result ++ repeat 0 nPad)%list in
  Ok (rev result).

(** ** Collaborators outside the repository *)

(** What [json.loads] returns. *)
#[warnings="-register-all"] Inductive json : Type :=
| JNull
| JBool (b : bool)
| JNumber (literal : string)
| JString (s : string)
| JArray (items : list json)
| JObject (members : list (string * json)).

(** The seed argument of the mnemonic validator: the decoder passes the
    raw text on one path and a word list on the other. *)
Inductive seed_arg : Type :=
| SeedText (segment : string)
| SeedWords (words : list string).

(** The libraries the decoder calls.  [receive_part] returns the decoder
    after the call; [Seed_validate] returns the truth value of the seed
    object it built, or what the constructor raised. *)
Class Collaborators : Type := {
  PSBT : Type;
  PSBT_parse : bytes -> res PSBT;
  json_loads : string -> option json;
  URDecoder : Type;
  URDecoder_new : URDecoder;
  receive_part : URDecoder -> string -> URDecoder;
  ur_is_complete : URDecoder -> bool;
  ur_result_psbt_data : URDecoder -> res bytes;
  bcur_decode : string -> res bytes;
  Seed_validate : seed_arg -> list string -> res bool
}.

(** The constants of [SettingsConstants] and [SeedConstants] that the
    settings decoder writes into its result; they are declared outside the
    files at hand and are taken as parameters. *)
Class Constants : Type := {
  OPTION__DISABLED : string;
  OPTION__ENABLED : string;
  OPTION__PROMPT : string;
  SINGLE_SIG : string;
  MULTISIG : string;
  NATIVE_SEGWIT : string;
  NESTED_SEGWIT : string;
  TAPROOT : string;
  CUSTOM_DERIVATION : string;
  COORDINATOR__BLUE_WALLET : string;
  COORDINATOR__SPARROW : string;
  COORDINATOR__SPECTER_DESKTOP : string
}.

Section Classifier.
Context `{Collaborators}.

(** [DecodeQR.isBase64] *)
Definition isBase64 (s : string) : bool :=
  try_except
    (decoded ← b64decode s;
     encoded ← encode_ascii s;
     Ok (bytes_eqb (map ord (list_ascii_of_string (b64encode decoded))) encoded))
    (fun _ => false).

(** [DecodeQR.isBase64PSBT] *)
Definition isBase64PSBT (s : string) : bool :=
  try_except
    (if isBase64 s then
       data ← a2b_base64 s;
       _ ← PSBT_parse data;
       Ok true
     else Ok false)
    (fun _ => false).

(** [DecodeQR.isBase43PSBT] *)
Definition isBase43PSBT (s : string) : bool :=
  try_except
    (data ← base43Decode s;
     _ ← PSBT_parse data;
     Ok true)
    (fun _ => false).

(** [DecodeQR.isBitcoinAddress] *)
Definition isBitcoinAddress (s : string) : bool :=
  if prefix_ci "bitcoin:" s then true
  else if bool_decide (is_Some (match_address s)) then true
  else false.

(** [all(x in wordlist for x in tokens)]; membership in [None] raises. *)
Definition all_in (tokens : list string) (wordlist : option (list string)) : res bool :=
  match wordlist with
  | Some wl => Ok (forallb (fun x => py_in x wl) tokens)
  | None => match tokens with [] => Ok true | _ :: _ => Raise TypeError end
  end.

(** [DecodeQR.SegmentType(s, wordlist)] *)
Definition SegmentType (s : string) (wordlist : option (list string)) : res QRType :=
  (* PSBT *)
  if prefix_ci "UR:CRYPTO-PSBT/" s then Ok PSBTUR2
  else if bool_decide (is_Some (match_specter_psbt s)) then Ok PSBTSPECTER
  else if prefix_ci "UR:BYTES/" s then Ok PSBTURLEGACY
  else if isBase64PSBT s then Ok PSBTBASE64
  else
  (* Wallet Descriptor *)
  let desc_str := py_replace " " "" (py_replace LF "" s) in
  if bool_decide (is_Some (match_pXofY s)) then Ok SPECTERWALLETQR
  else if match_label_descriptor desc_str then Ok SPECTERWALLETQR
  else
  (* the 4 letter wordlist; iterating over [None] is caught *)
  let _4LETTER_WORDLIST :=
    match wordlist with
    | Some wl => map (fun word => py_strip (py_slice 0 4 word)) wl
    | None => []
    end in
  let tokens := py_split " " (py_strip s) in
  (* Seed *)
  if search_digits_48 s then Ok SEEDSSQR
  (* Bitcoin Address *)
  else if isBitcoinAddress s then Ok BITCOINADDRESSQR
  (* Seed *)
  else
    in_wordlist ← all_in tokens wordlist;
    if (in_wordlist : bool) then Ok SEEDMNEMONIC
    else if forallb (fun x => py_in x _4LETTER_WORDLIST) tokens
    then Ok SEED4LETTERMNEMONIC
    else if isBase43PSBT s then Ok PSBTBASE43
    (* config data *)
    else if contains "type=settings" s then Ok SETTINGS
    else Ok INVALID.

End Classifier.

(** ** The animated decoders: a set of segment slots *)

(** The fields of [SpecterDecodePSBTQR], [LegacyURDecodeQR] and
    [SpecterDecodeWalletQR]; the three classes declare the same ones. *)
Module SegmentSet.
Record t : Type := mk {
  total_segments : option Z;
  collected_segments : Z;
  complete : bool;
  segments : list (option string)
}.

(** What [__init__] builds. *)
Definition init : t :=
  {| total_segments := None; collected_segments := 0; complete := false;
     segments := [] |}.

Definition set_total_segments (v : option Z) (self : t) : t :=
  {| total_segments := v; collected_segments := collected_segments self;
     complete := complete self; segments := segments self |}.
Definition set_collected_segments (v : Z) (self : t) : t :=
  {| total_segments := total_segments self; collected_segments := v;
     complete := complete self; segments := segments self |}.
Definition set_complete (v : bool) (self : t) : t :=
  {| total_segments := total_segments self;
     collected_segments := collected_segments self;
     complete := v; segments := segments self |}.
Definition set_segments (v : list (option string)) (self : t) : t :=
  {| total_segments := total_segments self;
     collected_segments := collected_segments self;
     complete := complete self; segments := v |}.

(** ["".join(self.segments)]: an empty slot is [None], which [join]
    refuses. *)
Fixpoint join (slots : list (option string)) : res string :=
  match slots with
  | [] => Ok ""
  | Some x :: r => j ← join r; Ok (x ++ j)
  | None :: _ => Raise TypeError
  end.

(** [[None] * n] *)
Definition empty_slots (n : Z) : list (option string) :=
  replicate (Z.to_nat n) None.

Section Add.
(** The format of a frame: its header and its payload. *)
Variables (totalSegmentNum currentSegmentNum : string -> res Z).
Variable parseSegment : string -> string.
Variable total_changed : string.

(** The body that [SpecterDecodePSBTQR.add] and [LegacyURDecodeQR.add]
    share, word for word but for the format and the message. *)
Definition add (segment : string) : M t DecodeQRStatus :=
  self ← get;
  match total_segments self with
  | None =>
      total ← lift (totalSegmentNum segment);
      modify (set_total_segments (Some total));;
      modify (set_segments (empty_slots total))
  | Some total =>
      total' ← lift (totalSegmentNum segment);
      if bool_decide (total ≠ total') then raise (Exception total_changed)
      else mret tt
  end;;
  current ← lift (currentSegmentNum segment);
  self ← get;
  slot ← lift (py_getitem (segments self) (current - 1));
  match slot with
  | None =>
      let payload := parseSegment segment in
      current ← lift (currentSegmentNum segment);
      slots ← lift (py_setitem (segments self) (current - 1) (Some payload));
      modify (set_segments slots);;
      modify (fun self => set_collected_segments (collected_segments self + 1) self);;
      self ← get;
      if bool_decide (total_segments self = Some (collected_segments self)) then
        modify (set_complete true);;
        mret COMPLETE
      else mret PART_COMPLETE
  | Some _ => mret PART_EXISTING
  end.
End Add.
End SegmentSet.

Module SpecterDecodePSBTQR.
Section WithCollaborators.
Context `{Collaborators}.

Definition unable_to_parse : exn :=
  Exception "Unable to parse Specter Desktop segment".

Definition currentSegmentNum (segment : string) : res Z :=
  ty ← SegmentType segment None;
  if bool_decide (ty = PSBTSPECTER) then
    match match_pXofY segment with
    | Some (g1, _, _) => py_int g1
    | None => Raise unable_to_parse
    end
  else Raise unable_to_parse.

Definition totalSegmentNum (segment : string) : res Z :=
  ty ← SegmentType segment None;
  if bool_decide (ty = PSBTSPECTER) then
    match match_pXofY segment with
    | Some (_, g2, _) => py_int g2
    | None => Raise unable_to_parse
    end
  else Raise unable_to_parse.

(** [segment.split(" ")[-1].strip()] *)
Definition parseSegment (segment : string) : string :=
  py_strip (List.last (py_split " " segment) "").

Definition add : string -> M SegmentSet.t DecodeQRStatus :=
  SegmentSet.add totalSegmentNum currentSegmentNum parseSegment
    "Specter Desktop segment total changed unexpectedly".

Definition getBase64Data (self : SegmentSet.t) : res (option string) :=
  base64 ← SegmentSet.join (SegmentSet.segments self);
  if SegmentSet.complete self && isBase64 base64 then Ok (Some base64)
  else Ok None.

Definition getData (self : SegmentSet.t) : res (option bytes) :=
  base64 ← getBase64Data self;
  match base64 with
  | Some b => data ← a2b_base64 b; Ok (Some data)
  | None => Ok None
  end.

Definition is_complete (self : SegmentSet.t) : bool := SegmentSet.complete self.
End WithCollaborators.
End SpecterDecodePSBTQR.

Module LegacyURDecodeQR.
Section WithCollaborators.
Context `{Collaborators}.

Definition currentSegmentNum (segment : string) : res Z :=
  ty ← SegmentType segment None;
  if bool_decide (ty = PSBTURLEGACY) then
    match match_ur_bytes_XofY segment with
    | Some (g1, _) => py_int g1
    | None => Raise (Exception "Unexpected Legacy UR Error")
    end
  else Raise (Exception "Unable to parse Legacy UR segment").

Definition totalSegmentNum (segment : string) : res Z :=
  ty ← SegmentType segment None;
  if bool_decide (ty = PSBTURLEGACY) then
    match match_ur_bytes_XofY segment with
    | Some (_, g2) => py_int g2
    | None => Ok 1
    end
  else Raise (Exception "Unable to parse Legacy UR segment").

(** [segment.split("/")[-1].strip()] *)
Definition parseSegment (segment : string) : string :=
  py_strip (List.last (py_split "/" segment) "").

Definition add : string -> M SegmentSet.t DecodeQRStatus :=
  SegmentSet.add totalSegmentNum currentSegmentNum parseSegment
    "UR Legacy segment total changed unexpectedly".

Definition getData (self : SegmentSet.t) : res (option bytes) :=
  if negb (SegmentSet.complete self) then Ok None
  else
    bc32_cbor ← SegmentSet.join (SegmentSet.segments self);
    raw ← bcur_decode bc32_cbor;
    Ok (Some raw).

Definition is_complete (self : SegmentSet.t) : bool := SegmentSet.complete self.
End WithCollaborators.
End LegacyURDecodeQR.

(** ** The single-frame decoders *)

Module Base64DecodeQR.
Section WithCollaborators.
Context `{Collaborators}.

Record t : Type := mk {
  total_segments : Z;
  collected_segments : Z;
  complete : bool;
  data : option string
}.

Definition init : t :=
  {| total_segments := 1; collected_segments := 0; complete := false;
     data := None |}.

Definition add (segment : string) : M t DecodeQRStatus :=
  if isBase64 segment then
    modify (fun self =>
      {| total_segments := total_segments self; collected_segments := 1;
         complete := true; data := Some segment |});;
    mret COMPLETE
  else mret INVALID_STATUS.

Definition getBase64Data (self : t) : option string := data self.

Definition getData (self : t) : res (option bytes) :=
  match getBase64Data self with
  | Some base64 => decoded ← a2b_base64 base64; Ok (Some decoded)
  | None => Ok None
  end.
End WithCollaborators.
End Base64DecodeQR.

Module Base43DecodeQR.
Section WithCollaborators.
Context `{Collaborators}.

Record t : Type := mk {
  total_segments : Z;
  collected_segments : Z;
  complete : bool;
  data : option bytes
}.

Definition init : t :=
  {| total_segments := 1; collected_segments := 0; complete := false;
     data := None |}.

Definition add (segment : string) : M t DecodeQRStatus :=
  if isBase43PSBT segment then
    modify (fun self =>
      {| total_segments := total_segments self;
         collected_segments := collected_segments self;
         complete := true; data := data self |});;
    decoded ← lift (base43Decode segment);
    modify (fun self =>
      {| total_segments := total_segments self; collected_segments := 1;
         complete := complete self; data := Some decoded |});;
    mret COMPLETE
  else mret INVALID_STATUS.

Definition getData (self : t) : option bytes := data self.
End WithCollaborators.
End Base43DecodeQR.

Module SeedQR.
Section WithCollaborators.
Context `{Collaborators}.

Record t : Type := mk {
  total_segments : Z;
  collected_segments : Z;
  complete : bool;
  seed_phrase : list string;
  wordlist : list string
}.

(** [SeedQR(wordlist=...)]: a wordlist is required. *)
Definition init (wordlist : option (list string)) : res t :=
  match wordlist with
  | None => Raise (Exception "Wordlist Required")
  | Some wl =>
      Ok {| total_segments := 1; collected_segments := 0; complete := false;
            seed_phrase := []; wordlist := wl |}
  end.

Definition set_seed_phrase (v : list string) (self : t) : t :=
  {| total_segments := total_segments self;
     collected_segments := collected_segments self;
     complete := complete self; seed_phrase := v; wordlist := wordlist self |}.

(** [self.complete = True; self.collected_segments = 1] *)
Definition set_done (self : t) : t :=
  {| total_segments := total_segments self; collected_segments := 1;
     complete := true; seed_phrase := seed_phrase self;
     wordlist := wordlist self |}.

Definition is1224Phrase (self : t) : bool :=
  bool_decide (length (seed_phrase self) = 12%nat) ||
  bool_decide (length (seed_phrase self) = 24%nat).

(** [for i in range(0, num_words): ...] from [i] on, for [n] more
    rounds: every round appends one word to [self.seed_phrase]. *)
Fixpoint numeric_loop (segment : string) (i n : nat) : M t unit :=
  match n with
  | O => mret tt
  | S n' =>
      index ← lift (py_int (py_slice (i * 4) (i * 4 + 4) segment));
      self ← get;
      word ← lift (py_getitem (wordlist self) index);
      modify (fun self => set_seed_phrase (seed_phrase self ++ [word]) self);;
      numeric_loop segment (S i) n'
  end.

(** The three branches of [add] end alike. *)
Definition finish : M t DecodeQRStatus :=
  self ← get;
  if negb (is1224Phrase self) then mret INVALID_STATUS
  else modify set_done;; mret COMPLETE.

Definition add (segment : string) (qr_type : QRType) : M t DecodeQRStatus :=
  self ← get;
  let _4LETTER_WORDLIST :=
    map (fun word => py_strip (py_slice 0 4 word)) (wordlist self) in
  if bool_decide (qr_type = SEEDSSQR) then
    try_catch
      (modify (set_seed_phrase []);;
       (* Parse 12 or 24-word QR code *)
       let num_words := (String.length segment / 4)%nat in
       numeric_loop segment 0 num_words;;
       self ← get;
       if bool_decide (0 < length (seed_phrase self))%nat then finish
       else mret INVALID_STATUS)
      (fun _ => mret INVALID_STATUS)
  else if bool_decide (qr_type = SEEDMNEMONIC) then
    try_catch
      (seed ← lift (Seed_validate (SeedText segment) (wordlist self));
       if negb (seed : bool) then mret INVALID_STATUS
       else
         modify (set_seed_phrase (py_split " " (py_strip segment)));;
         finish)
      (fun _ => mret INVALID_STATUS)
  else if bool_decide (qr_type = SEED4LETTERMNEMONIC) then
    try_catch
      (let sl := py_split " " (py_strip segment) in
       words ← lift (mapM (fun s =>
                  i ← py_list_index s _4LETTER_WORDLIST;
                  py_getitem (wordlist self) i) sl);
       seed ← lift (Seed_validate (SeedWords words) (wordlist self));
       if negb (seed : bool) then mret INVALID_STATUS
       else
         modify (set_seed_phrase words);;
         finish)
      (fun _ => mret INVALID_STATUS)
  else mret INVALID_STATUS.

Definition getSeedPhrase (self : t) : list string :=
  if complete self then seed_phrase self else [].
End WithCollaborators.
End SeedQR.

Module SettingsQR.

(** A translated value: one constant, or a list of constants. *)
Inductive mapped : Type :=
| MStr (s : string)
| MList (l : list string).

(** A value of [self.settings]: the raw text of a [key=value] entry, or
    one of the nested categories the translation builds. *)
Inductive entry : Type :=
| Raw (value : string)
| Category (members : gmap string mapped).

Record t : Type := mk {
  total_segments : Z;
  collected_segments : Z;
  complete : bool;
  settings : gmap string entry;
  config_name : option string
}.

Definition init : t :=
  {| total_segments := 1; collected_segments := 0; complete := false;
     settings := ∅; config_name := None |}.

Definition set_settings (v : gmap string entry) (self : t) : t :=
  {| total_segments := total_segments self;
     collected_segments := collected_segments self;
     complete := complete self; settings := v;
     config_name := config_name self |}.
Definition set_config_name (v : option string) (self : t) : t :=
  {| total_segments := total_segments self;
     collected_segments := collected_segments self;
     complete := complete self; settings := settings self;
     config_name := v |}.
(** [self.complete = True; self.collected_segments = 1] *)
Definition set_done (self : t) : t :=
  {| total_segments := total_segments self; collected_segments := 1;
     complete := true; settings := settings self;
     config_name := config_name self |}.

(** [abbreviation_map.get(value)] on a dict literal. *)
Fixpoint dict_get (abbreviation_map : list (string * string)) (value : string)
  : option string :=
  match abbreviation_map with
  | [] => None
  | (k, v) :: r => if String.eqb k value then Some v else dict_get r value
  end.

(** [abbreviation_map.get(v)] followed by [if not mapped_value]: a
    missing key gives [None], and an empty constant is as false as
    [None]. *)
Definition lookup_truthy (abbreviation_map : list (string * string)) (v : string)
  : option string :=
  match dict_get abbreviation_map v with
  | Some m => if nonempty m then Some m else None
  | None => None
  end.

(** The inner function [convert_abbreviated_value]; it catches what it
    raises, so it always returns, with the dict as far as it got. *)
Definition convert_abbreviated_value
    (category key : string) (abbreviation_map : list (string * string))
    (is_list : bool) (new_key_name : option string)
    (settings : gmap string entry) : gmap string entry :=
  match settings !! key with
  | None => settings
  | Some (Category _) => settings   (* not hashable, no [split]: caught *)
  | Some (Raw value) =>
      let new_value : option mapped :=
        if negb is_list then MStr <$> lookup_truthy abbreviation_map value
        else MList <$> mapM (lookup_truthy abbreviation_map) (py_split "," value) in
      match new_value with
      | None => settings
      | Some new_value =>
          let settings := delete key settings in
          let key :=
            match new_key_name with
            | Some n => if nonempty n then n else key
            | None => key
            end in
          let settings :=
            match settings !! category with
            | None => <[category := Category ∅]> settings
            | Some _ => settings
            end in
          match settings !! category with
          | Some (Category members) =>
              <[category := Category (<[key := new_value]> members)]> settings
          | _ => settings   (* a text does not take an item: caught *)
          end
      end
  end.

Section WithConstants.
Context `{Constants}.

Definition map_abbreviated_enable : list (string * string) :=
  [("0", OPTION__DISABLED); ("1", OPTION__ENABLED); ("2", OPTION__PROMPT)].
Definition map_abbreviated_sig_types : list (string * string) :=
  [("s", SINGLE_SIG); ("m", MULTISIG)].
Definition map_abbreviated_scripts : list (string * string) :=
  [("na", NATIVE_SEGWIT); ("ne", NESTED_SEGWIT); ("tr", TAPROOT);
   ("cu", CUSTOM_DERIVATION)].
Definition map_abbreviated_coordinators : list (string * string) :=
  [("bw", COORDINATOR__BLUE_WALLET); ("sw", COORDINATOR__SPARROW);
   ("sd", COORDINATOR__SPECTER_DESKTOP)].

(** The eight calls of [convert_abbreviated_value], in order. *)
Definition convert_all (settings : gmap string entry) : gmap string entry :=
  let settings := convert_abbreviated_value "wallet" "coord" map_abbreviated_coordinators true (Some "coordinators") settings in
  let settings := convert_abbreviated_value "features" "xpub" map_abbreviated_enable false (Some "xpub_export") settings in
  let settings := convert_abbreviated_value "features" "sigs" map_abbreviated_sig_types true (Some "sig_types") settings in
  let settings := convert_abbreviated_value "features" "scripts" map_abbreviated_scripts true (Some "script_types") settings in
  let settings := convert_abbreviated_value "features" "xp_det" map_abbreviated_enable false (Some "show_xpub_details") settings in
  let settings := convert_abbreviated_value "features" "passphrase" map_abbreviated_enable false None settings in
  let settings := convert_abbreviated_value "features" "priv_warn" map_abbreviated_enable false (Some "show_privacy_warnings") settings in
  convert_abbreviated_value "features" "dire_warn" map_abbreviated_enable false (Some "show_dire_warnings") settings.

(** [for entry in segment.split(" "): ...]: every entry is written into
    [self.settings] as it is read. *)
Fixpoint parse_entries (entries : list string) : M t unit :=
  match entries with
  | [] => mret tt
  | e :: r =>
      key ← lift (py_strip <$> py_getitem (py_split "=" e) 0);
      value ← lift (py_strip <$> py_getitem (py_split "=" e) 1);
      modify (fun self => set_settings (<[key := Raw value]> (settings self)) self);;
      parse_entries r
  end.

(** [self.settings.pop(key, None)] *)
Definition pop (key : string) : M t (option entry) :=
  self ← get;
  modify (set_settings (delete key (settings self)));;
  mret (settings self !! key).

Definition raw_text (e : option entry) : option string :=
  match e with
  | Some (Raw v) => Some v
  | _ => None
  end.

Definition add (segment : string) (qr_type : QRType) : M t DecodeQRStatus :=
  try_catch
    (modify (set_settings ∅);;
     (* QR Settings format is space-separated key/value pairs *)
     parse_entries (py_split " " segment);;
     (* Remove values only needed for import *)
     pop "type";;
     version ← pop "version";
     let version := raw_text version in
     (match version with
      | None => raise (Exception "Settings QR version None not supported")
      | Some v =>
          if negb (nonempty v) then
            raise (Exception ("Settings QR version " ++ v ++ " not supported"))
          else
            n ← lift (py_int v);
            if bool_decide (n ≠ 1) then
              raise (Exception ("Settings QR version " ++ v ++ " not supported"))
            else mret tt
      end);;
     name ← pop "name";
     modify (set_config_name (raw_text name));;
     (match raw_text name with
      | Some n =>
          if nonempty n then modify (set_config_name (Some (py_replace "_" " " n)))
          else mret tt
      | None => mret tt
      end);;
     modify (fun self => set_settings (convert_all (settings self)) self);;
     modify set_done;;
     mret COMPLETE)
    (fun _ => mret INVALID_STATUS).

End WithConstants.
End SettingsQR.

Module BitcoinAddressQR.

Record t : Type := mk {
  total_segments : Z;
  collected_segments : Z;
  complete : bool;
  address : option string;
  address_type : option string
}.

Definition init : t :=
  {| total_segments := 1; collected_segments := 0; complete := false;
     address := None; address_type := None |}.

Definition set_address (v : option string) (self : t) : t :=
  {| total_segments := total_segments self;
     collected_segments := collected_segments self;
     complete := complete self; address := v;
     address_type := address_type self |}.
Definition set_address_type (v : option string) (self : t) : t :=
  {| total_segments := total_segments self;
     collected_segments := collected_segments self;
     complete := complete self; address := address self;
     address_type := v |}.
(** [self.complete = True; self.collected_segments = 1] *)
Definition set_done (self : t) : t :=
  {| total_segments := total_segments self; collected_segments := 1;
     complete := true; address := address self;
     address_type := address_type self |}.

(** The chain of [if r == ...] that names the address type; a prefix
    outside the table leaves the type as it was. *)
Definition type_of_prefix (r : string) : option string :=
  if String.eqb r "1" then Some "P2PKH-main"
  else if String.eqb r "m" || String.eqb r "n" then Some "P2PKH-test"
  else if String.eqb r "3" then Some "P2SH-main"
  else if String.eqb r "2" then Some "P2SH-test"
  else if String.eqb r "bc1" then Some "Bech32-main"
  else if String.eqb r "tb1" then Some "Bech32-test"
  else None.

Definition add (segment : string) (qr_type : QRType) : M t DecodeQRStatus :=
  match search_address segment with
  | Some (g1, _) =>
      modify (set_address (Some g1));;
      match match_address g1 with
      | Some (_, r) =>
          modify set_done;;
          (* get address type *)
          match type_of_prefix r with
          | Some ty => modify (set_address_type (Some ty))
          | None => mret tt
          end;;
          mret COMPLETE
      | None => mret INVALID_STATUS
      end
  | None => mret INVALID_STATUS
  end.

Definition getAddress (self : t) : option string :=
  match address self with
  | Some a => Some a
  | None => None
  end.

Definition getAddressType (self : t) : option string :=
  match address self with
  | Some _ =>
      match address_type self with
      | Some ty => Some ty
      | None => Some "Unknown"
      end
  | None => None
  end.
End BitcoinAddressQR.

Module SpecterDecodeWalletQR.
Section WithCollaborators.
Context `{Collaborators}.

(** The function falls off its end, and so returns [None], when the
    frame is not of the wallet type. *)
Definition currentSegmentNum (segment : string) : res (option Z) :=
  ty ← SegmentType segment None;
  if bool_decide (ty = SPECTERWALLETQR) then
    match match_pXofY segment with
    | Some (g1, _, _) => Some <$> py_int g1
    | None => Ok (Some 1)
    end
  else Ok None.

Definition totalSegmentNum (segment : string) : res (option Z) :=
  ty ← SegmentType segment None;
  if bool_decide (ty = SPECTERWALLETQR) then
    match match_pXofY segment with
    | Some (_, g2, _) => Some <$> py_int g2
    | None => Ok (Some 1)
    end
  else Ok None.

(** Group 3 of the framed pattern, or the frame itself when [None] has
    no [group]. *)
Definition parseSegment (segment : string) : string :=
  match match_pXofY_payload segment with
  | Some g3 => g3
  | None => segment
  end.

(** Only a JSON decoding error is caught; what [join] raises on an
    empty slot goes through. *)
Definition validateJson (self : SegmentSet.t) : res bool :=
  j ← SegmentSet.join (SegmentSet.segments self);
  match json_loads j with
  | None => Ok false
  | Some _ => Ok true
  end.

(** ["descriptor" in data] *)
Definition json_contains (key : string) (data : json) : res bool :=
  match data with
  | JObject members => Ok (existsb (fun kv => String.eqb (fst kv) key) members)
  | JArray items =>
      Ok (existsb (fun x => match x with
                            | JString s => String.eqb s key
                            | _ => false
                            end) items)
  | JString s => Ok (contains key s)
  | _ => Raise TypeError
  end.

(** [data['descriptor']] *)
Definition json_getitem (key : string) (data : json) : res json :=
  match data with
  | JObject members =>
      match find (fun kv => String.eqb (fst kv) key) members with
      | Some (_, v) => Ok v
      | None => Raise KeyError
      end
  | _ => Raise TypeError
  end.

(** [True], [False], or [None] when the text is not JSON. *)
Definition validateWalletDescriptor (self : SegmentSet.t) : res (option bool) :=
  valid ← validateJson self;
  if (valid : bool) then
    j ← SegmentSet.join (SegmentSet.segments self);
    match json_loads j with
    | Some data => found ← json_contains "descriptor" data; Ok (Some found)
    | None => Raise ValueError
    end
  else Ok None.

Definition add (segment : string) : M SegmentSet.t DecodeQRStatus :=
  self ← get;
  match SegmentSet.total_segments self with
  | None =>
      total ← lift (totalSegmentNum segment);
      modify (SegmentSet.set_total_segments total);;
      match total with
      | Some n => modify (SegmentSet.set_segments (SegmentSet.empty_slots n))
      | None => raise TypeError
      end
  | Some total =>
      total' ← lift (totalSegmentNum segment);
      if bool_decide (Some total ≠ total')
      then raise (Exception "Specter Desktop segment total changed unexpectedly")
      else mret tt
  end;;
  current ← lift (currentSegmentNum segment);
  current ← lift (match current with Some c => Ok c | None => Raise TypeError end);
  self ← get;
  slot ← lift (py_getitem (SegmentSet.segments self) (current - 1));
  match slot with
  | None =>
      let payload := parseSegment segment in
      slots ← lift (py_setitem (SegmentSet.segments self) (current - 1) (Some payload));
      modify (SegmentSet.set_segments slots);;
      modify (fun self =>
        SegmentSet.set_collected_segments (SegmentSet.collected_segments self + 1) self);;
      self ← get;
      if bool_decide (SegmentSet.total_segments self
                      = Some (SegmentSet.collected_segments self)) then
        valid ← lift (validateWalletDescriptor self);
        if bool_decide (valid = Some true) then
          modify (SegmentSet.set_complete true);;
          mret COMPLETE
        else mret INVALID_STATUS
      else mret PART_COMPLETE
  | Some _ => mret PART_EXISTING
  end.

Definition getWalletDescriptor (self : SegmentSet.t) : res (option json) :=
  valid ← validateWalletDescriptor self;
  if bool_decide (valid = Some true) then
    j ← SegmentSet.join (SegmentSet.segments self);
    match json_loads j with
    | Some data => d ← json_getitem "descriptor" data; Ok (Some d)
    | None => Raise ValueError
    end
  else Ok None.

Definition is_complete (self : SegmentSet.t) : res bool :=
  if SegmentSet.complete self then
    valid ← validateWalletDescriptor self;
    Ok (bool_decide (valid = Some true))
  else Ok false.
End WithCollaborators.
End SpecterDecodeWalletQR.

(** ** The session: [DecodeQR] *)

Module DecodeQR.
Section WithCollaborators.
Context `{Collaborators} `{Constants}.

Record t : Type := mk {
  complete : bool;
  qr_type : option QRType;
  ur_decoder : URDecoder;
  specter_qr : SegmentSet.t;
  legacy_ur : SegmentSet.t;
  base64_qr : Base64DecodeQR.t;
  base43_qr : Base43DecodeQR.t;
  address_qr : BitcoinAddressQR.t;
  specter_wallet_qr : SegmentSet.t;
  settings_qr : SettingsQR.t;
  wordlist : list string;
  seedqr : SeedQR.t
}.

(** [DecodeQR(qr_type=..., wordlist=...)] *)
Definition init (qr_type : option QRType) (wordlist : option (list string)) : res t :=
  match wordlist with
  | None => Raise (Exception "Wordlist Required")
  | Some wl =>
      seedqr ← SeedQR.init (Some wl);
      Ok {| complete := false; qr_type := qr_type;
            ur_decoder := URDecoder_new;
            specter_qr := SegmentSet.init;
            legacy_ur := SegmentSet.init;
            base64_qr := Base64DecodeQR.init;
            base43_qr := Base43DecodeQR.init;
            address_qr := BitcoinAddressQR.init;
            specter_wallet_qr := SegmentSet.init;
            settings_qr := SettingsQR.init;
            wordlist := wl;
            seedqr := seedqr |}
  end.

Definition set_complete (v : bool) (self : t) : t :=
  let 'mk _ a b c d e f g h i j k := self in mk v a b c d e f g h i j k.
Definition set_qr_type (v : option QRType) (self : t) : t :=
  let 'mk a _ b c d e f g h i j k := self in mk a v b c d e f g h i j k.
Definition set_ur_decoder (v : URDecoder) (self : t) : t :=
  let 'mk a b _ c d e f g h i j k := self in mk a b v c d e f g h i j k.
Definition set_specter_qr (v : SegmentSet.t) (self : t) : t :=
  let 'mk a b c _ d e f g h i j k := self in mk a b c v d e f g h i j k.
Definition set_legacy_ur (v : SegmentSet.t) (self : t) : t :=
  let 'mk a b c d _ e f g h i j k := self in mk a b c d v e f g h i j k.
Definition set_base64_qr (v : Base64DecodeQR.t) (self : t) : t :=
  let 'mk a b c d e _ f g h i j k := self in mk a b c d e v f g h i j k.
Definition set_base43_qr (v : Base43DecodeQR.t) (self : t) : t :=
  let 'mk a b c d e f _ g h i j k := self in mk a b c d e f v g h i j k.
Definition set_address_qr (v : BitcoinAddressQR.t) (self : t) : t :=
  let 'mk a b c d e f g _ h i j k := self in mk a b c d e f g v h i j k.
Definition set_specter_wallet_qr (v : SegmentSet.t) (self : t) : t :=
  let 'mk a b c d e f g h _ i j k := self in mk a b c d e f g h v i j k.
Definition set_settings_qr (v : SettingsQR.t) (self : t) : t :=
  let 'mk a b c d e f g h i _ j k := self in mk a b c d e f g h i v j k.
Definition set_seedqr (v : SeedQR.t) (self : t) : t :=
  let 'mk a b c d e f g h i j k _ := self in mk a b c d e f g h i j k v.

(** A call of a method of one of the decoders the session owns. *)
Definition call {T A} (field : t -> T) (set_field : T -> t -> t) (m : M T A)
  : M t A :=
  fun self =>
    let '(r, sub) := m (field self) in (r, set_field sub self).

(** [rt = ...add(...); if rt == COMPLETE: self.complete = True; return rt] *)
Definition mirror (m : M t DecodeQRStatus) : M t DecodeQRStatus :=
  rt ← m;
  (if bool_decide (rt = COMPLETE) then modify (set_complete true) else mret tt);;
  mret rt.

Definition addString (qr_str : option string) : M t DecodeQRStatus :=
  match qr_str with
  | None => mret FALSE
  | Some qr_str =>
      self ← get;
      qr_type' ← lift (SegmentType qr_str (Some (wordlist self)));
      match qr_type self with
      | None => modify (set_qr_type (Some qr_type'))
      | Some locked =>
          if bool_decide (locked ≠ qr_type')
          then raise (Exception "QR Fragement Unexpected Type Change")
          else mret tt
      end;;
      self ← get;
      match qr_type self with
      | Some PSBTUR2 =>
          modify (fun self => set_ur_decoder (receive_part (ur_decoder self) qr_str) self);;
          self ← get;
          if ur_is_complete (ur_decoder self) then
            modify (set_complete true);;
            mret COMPLETE
          else mret PART_COMPLETE
      | Some PSBTSPECTER =>
          mirror (call specter_qr set_specter_qr (SpecterDecodePSBTQR.add qr_str))
      | Some PSBTURLEGACY =>
          mirror (call legacy_ur set_legacy_ur (LegacyURDecodeQR.add qr_str))
      | Some PSBTBASE64 =>
          mirror (call base64_qr set_base64_qr (Base64DecodeQR.add qr_str))
      | Some PSBTBASE43 =>
          mirror (call base43_qr set_base43_qr (Base43DecodeQR.add qr_str))
      | Some SEEDSSQR =>
          mirror (call seedqr set_seedqr (SeedQR.add qr_str SEEDSSQR))
      | Some SETTINGS =>
          mirror (call settings_qr set_settings_qr (SettingsQR.add qr_str SETTINGS))
      | Some SEEDMNEMONIC =>
          mirror (call seedqr set_seedqr (SeedQR.add qr_str SEEDMNEMONIC))
      | Some SEED4LETTERMNEMONIC =>
          mirror (call seedqr set_seedqr (SeedQR.add qr_str SEED4LETTERMNEMONIC))
      | Some BITCOINADDRESSQR =>
          mirror (call address_qr set_address_qr
                    (BitcoinAddressQR.add qr_str BITCOINADDRESSQR))
      | Some SPECTERWALLETQR =>
          mirror (call specter_wallet_qr set_specter_wallet_qr
                    (SpecterDecodeWalletQR.add qr_str))
      | _ => mret INVALID_STATUS
      end
  end.

Definition getDataPSBT (self : t) : res (option bytes) :=
  if complete self then
    match qr_type self with
    | Some PSBTUR2 => Some <$> ur_result_psbt_data (ur_decoder self)
    | Some PSBTSPECTER => SpecterDecodePSBTQR.getData (specter_qr self)
    | Some PSBTURLEGACY => LegacyURDecodeQR.getData (legacy_ur self)
    | Some PSBTBASE64 => Base64DecodeQR.getData (base64_qr self)
    | Some PSBTBASE43 => Ok (Base43DecodeQR.getData (base43_qr self))
    | _ => Ok None
    end
  else Ok None.

(** A parse error of the final bytes is caught and gives [None]. *)
Definition getPSBT (self : t) : res (option PSBT) :=
  if complete self then
    data ← getDataPSBT self;
    match data with
    | Some d => Ok (try_except (Some <$> PSBT_parse d) (fun _ => None))
    | None => Ok None
    end
  else Ok None.

(** [b2a_base64] ends its text with a newline, which is cut off again. *)
Definition getBase64PSBT (self : t) : res (option string) :=
  if complete self then
    data ← getDataPSBT self;
    match data with
    | Some d => Ok (Some (b64encode d))
    | None => Raise TypeError
    end
  else Ok None.

Definition getSeedPhrase (self : t) : list string :=
  SeedQR.getSeedPhrase (seedqr self).

Definition get_settings_data (self : t) : gmap string SettingsQR.entry :=
  SettingsQR.settings (settings_qr self).

Definition get_settings_config_name (self : t) : option string :=
  SettingsQR.config_name (settings_qr self).

Definition getAddress (self : t) : option string :=
  BitcoinAddressQR.getAddress (address_qr self).

Definition getAddressType (self : t) : option string :=
  BitcoinAddressQR.getAddressType (address_qr self).

Definition getWalletDescriptor (self : t) : res (option json) :=
  SpecterDecodeWalletQR.getWalletDescriptor (specter_wallet_qr self).

Definition isComplete (self : t) : bool := complete self.

Definition isInvalid (self : t) : bool :=
  bool_decide (qr_type self = Some INVALID).

Definition qrType (self : t) : option QRType := qr_type self.
End WithCollaborators.
End DecodeQR.

(** ** The seed model: [xmrsigner/models/seed.py] *)

(** What the seed model calls outside the files at hand: Unicode
    normalisation, the Monero seed library (the hex form of the seed of a
    phrase, already through [unhexlify]) and two constants of the settings
    module. *)
Class SeedCollaborators : Type := {
  unicodedata_normalize : string -> string -> string;
  MoneroSeed_bytes : string -> string -> res bytes;
  WORDLIST_LANGUAGE__ENGLISH : string;
  ALL_WORDLIST_LANGUAGE_ENGLISH__NAMES : gmap string string
}.

Module Seed.
Section WithCollaborators.
Context `{SeedCollaborators}.

Record t : Type := mk {
  wordlist_language_code : string;
  _mnemonic : list string;
  _passphrase : option string;
  seed_bytes : option bytes
}.

Definition must_initialize : exn :=
  Exception "Must initialize a Seed with a mnemonic List[str]".

Definition wrong_amount (mnemonic_words : nat) : exn :=
  Exception ("Mnemonic has not the right amounts of words, expected to have 12, 13, 24 or 25. Got: "
             ++ pretty mnemonic_words).

Definition passwords_not_implemented : exn :=
  Exception "Passwords for monero seeds are not yet implemented".

Definition mnemonic_str (self : t) : string := py_join " " (_mnemonic self).

Definition passphrase (self : t) : option string := _passphrase self.

Definition _generate_seed : M t unit :=
  self ← get;
  match passphrase self with
  | Some _ => raise passwords_not_implemented
  | None =>
      try_catch
        (name ← lift (match ALL_WORDLIST_LANGUAGE_ENGLISH__NAMES
                              !! wordlist_language_code self with
                      | Some n => Ok n
                      | None => Raise KeyError
                      end);
         seed ← lift (MoneroSeed_bytes (mnemonic_str self) name);
         put {| wordlist_language_code := wordlist_language_code self;
                _mnemonic := _mnemonic self;
                _passphrase := _passphrase self;
                seed_bytes := Some seed |})
        (fun _ => raise InvalidSeedException)
  end.

Definition set_passphrase (passphrase : option string) (regenerate_seed : bool)
  : M t unit :=
  modify (fun self =>
    {| wordlist_language_code := wordlist_language_code self;
       _mnemonic := _mnemonic self;
       _passphrase :=
         match passphrase with
         | Some p => if nonempty p then Some (unicodedata_normalize "NFKD" p)
                     else None
         | None => None
         end;
       seed_bytes := seed_bytes self |});;
  if regenerate_seed then _generate_seed else mret tt.

(** [len(mnemonic) in (12, 13, 24, 25)] *)
Definition right_amount (mnemonic_words : nat) : bool :=
  bool_decide (mnemonic_words ∈ [12; 13; 24; 25]%nat).

(** [Seed(mnemonic, passphrase, wordlist_language_code)]: the object, or
    what the constructor raised. *)
Definition init (mnemonic : option (list string)) (passphrase : option string)
    (wordlist_language_code : string) : res t :=
  match mnemonic with
  | None | Some [] => Raise must_initialize
  | Some mnemonic =>
      let mnemonic_words := length mnemonic in
      if negb (right_amount mnemonic_words) then Raise (wrong_amount mnemonic_words)
      else
        let self :=
          {| wordlist_language_code := wordlist_language_code;
             _mnemonic :=
               py_split_ws
                 (unicodedata_normalize "NFKD" (py_strip (py_join " " mnemonic)));
             _passphrase := None;
             seed_bytes := None |} in
        match (set_passphrase passphrase false;; _generate_seed) self with
        | (Ok _, self) => Ok self
        | (Raise e, _) => Raise e
        end
  end.

Definition is_my_monero (self : t) : bool :=
  bool_decide (length (_mnemonic self) = 13%nat).
End WithCollaborators.
End Seed.

(** ** Sample collaborators, for running the model on concrete frames *)

(** A stand-in for the structural PSBT parser: it accepts the bytes that
    start with the magic of the format, [psbt] and [0xff]. *)
Definition sample_PSBT_parse (b : bytes) : res bytes :=
  match b with
  | 112 :: 115 :: 98 :: 116 :: 255 :: _ => Ok b
  | _ => Raise (Exception "Invalid PSBT magic")
  end.

Definition sample_collaborators : Collaborators := {|
  PSBT := bytes;
  PSBT_parse := sample_PSBT_parse;
  json_loads := fun _ => None;
  URDecoder := list string;
  URDecoder_new := [];
  receive_part := fun d part => part :: d;
  ur_is_complete := fun _ => false;
  ur_result_psbt_data := fun _ => Raise ValueError;
  bcur_decode := fun _ => Raise ValueError;
  Seed_validate := fun _ _ => Ok true
|}.

(** The values the constants have in the SeedSigner code base. *)
Definition sample_constants : Constants := {|
  OPTION__DISABLED := "D";
  OPTION__ENABLED := "E";
  OPTION__PROMPT := "P";
  SINGLE_SIG := "ss";
  MULTISIG := "ms";
  NATIVE_SEGWIT := "nat";
  NESTED_SEGWIT := "nes";
  TAPROOT := "tr";
  CUSTOM_DERIVATION := "cus";
  COORDINATOR__BLUE_WALLET := "bw";
  COORDINATOR__SPARROW := "spa";
  COORDINATOR__SPECTER_DESKTOP := "spd"
|}.

(** A seed library that accepts every phrase. *)
Definition sample_seed_collaborators : SeedCollaborators := {|
  unicodedata_normalize := fun _ s => s;
  MoneroSeed_bytes := fun _ _ => Ok [];
  WORDLIST_LANGUAGE__ENGLISH := "en";
  ALL_WORDLIST_LANGUAGE_ENGLISH__NAMES := {[ "en" := "English" ]}
|}.

Definition sample_wordlist : list string :=
  ["abandon"; "ability"; "able"; "about"; "above"; "absent"; "absorb";
   "abstract"].

(** The session [DecodeQR(wordlist=wl)] builds. *)
Definition fresh_session `{Collaborators} (wl : list string) : DecodeQR.t :=
  {| DecodeQR.complete := false; DecodeQR.qr_type := None;
     DecodeQR.ur_decoder := URDecoder_new;
     DecodeQR.specter_qr := SegmentSet.init;
     DecodeQR.legacy_ur := SegmentSet.init;
     DecodeQR.base64_qr := Base64DecodeQR.init;
     DecodeQR.base43_qr := Base43DecodeQR.init;
     DecodeQR.address_qr := BitcoinAddressQR.init;
     DecodeQR.specter_wallet_qr := SegmentSet.init;
     DecodeQR.settings_qr := SettingsQR.init;
     DecodeQR.wordlist := wl;
     DecodeQR.seedqr :=
       {| SeedQR.total_segments := 1; SeedQR.collected_segments := 0;
          SeedQR.complete := false; SeedQR.seed_phrase := [];
          SeedQR.wordlist := wl |} |}.

(** The decoder [SeedQR(wordlist=wl)] builds. *)
Definition fresh_seedqr (wl : list string) : SeedQR.t :=
  {| SeedQR.total_segments := 1; SeedQR.collected_segments := 0;
     SeedQR.complete := false; SeedQR.seed_phrase := [];
     SeedQR.wordlist := wl |}.

(** ** The reading of a numeric seed, for comparison with [SeedQR.add]

    The groups the numeric branch reads: the first [len / 4] slices of four
    characters; what is left over after the last whole group is not read.
    Each group goes through [int()] and then indexes the wordlist the way
    Python indexes a list. *)
Definition numeric_group (segment : string) (i : nat) : string :=
  py_slice (i * 4) (i * 4 + 4) segment.

Definition numeric_word (wl : list string) (segment : string) (i : nat) : res string :=
  index ← py_int (numeric_group segment i);
  py_getitem wl index.

Definition numeric_words (wl : list string) (segment : string) : res (list string) :=
  mapM (numeric_word wl segment) (seq 0 (String.length segment / 4)).

(** Twelve groups of four digits, and one digit more. *)
Definition numeric_seed_49 : string :=
  "0000000100020003000400050006000700000001000200037".

(** ** The reading of a settings frame, for comparison with [SettingsQR.add]

    The key and the value of one [key=value] entry, as the loop of
    [SettingsQR.add] takes them, and the eight calls of
    [convert_abbreviated_value] as a table: category, key, abbreviation
    map, whether the value is a list, and the new name of the key. *)
Definition entry_key (e : string) : string :=
  py_strip (hd "" (py_split "=" e)).

Definition entry_value (e : string) : res string :=
  py_strip <$> py_getitem (py_split "=" e) 1.

Definition conversions `{Constants}
  : list (string * string * list (string * string) * bool * option string) :=
  [("wallet", "coord", SettingsQR.map_abbreviated_coordinators, true, Some "coordinators");
   ("features", "xpub", SettingsQR.map_abbreviated_enable, false, Some "xpub_export");
   ("features", "sigs", SettingsQR.map_abbreviated_sig_types, true, Some "sig_types");
   ("features", "scripts", SettingsQR.map_abbreviated_scripts, true, Some "script_types");
   ("features", "xp_det", SettingsQR.map_abbreviated_enable, false, Some "show_xpub_details");
   ("features", "passphrase", SettingsQR.map_abbreviated_enable, false, None);
   ("features", "priv_warn", SettingsQR.map_abbreviated_enable, false,
    Some "show_privacy_warnings");
   ("features", "dire_warn", SettingsQR.map_abbreviated_enable, false,
    Some "show_dire_warnings")].

(** A value that its abbreviation map does not translate: the value
    itself for a scalar key, one of its comma-separated parts for a list
    key, has no entry in the map (or an entry that counts as false). *)
Definition untranslated (abbreviation_map : list (string * string)) (is_list : bool)
    (value : string) : Prop :=
  if is_list
  then Exists (fun v => SettingsQR.lookup_truthy abbreviation_map v = None)
         (py_split "," value)
  else SettingsQR.lookup_truthy abbreviation_map value = None.

(** ** The prefixes of the address pattern

    The seven texts the alternation [(bc1|tb1|[123]|[mn])] can match. *)
Definition is_addr_prefix (p : string) : Prop :=
  p ∈ ["bc1"; "tb1"; "1"; "2"; "3"; "m"; "n"].

(** ** The state of a reassembly, for the invariants of [SegmentSet.add]

    A set of [N] slots in which exactly the frames numbered [seen] (from 1)
    have been collected: the total is [N], there are [N] slots, the counter
    is the number of frames seen, and slot [j] is empty exactly when frame
    [j + 1] has not been seen. *)
Definition collected_exactly (N : nat) (seen : list Z) (self : SegmentSet.t) : Prop :=
  SegmentSet.total_segments self = Some (Z.of_nat N) /\
  length (SegmentSet.segments self) = N /\
  SegmentSet.collected_segments self = Z.of_nat (length seen) /\
  forall j : nat, (j < N)%nat ->
    (SegmentSet.segments self !! j = Some None <-> Z.of_nat j + 1 ∉ seen).

(** The frames of a run, one after the other: the statuses (or what was
    raised; a raise ends the run) and the object at the end. *)
Fixpoint run {S A} (add : string -> M S A) (frames : list string) (s : S)
  : list (res A) * S :=
  match frames with
  | [] => ([], s)
  | f :: r =>
      match add f s with
      | (Ok a, s') => let '(rs, s'') := run add r s' in (Ok a :: rs, s'')
      | (Raise e, s') => ([Raise e], s')
      end
  end.

(** * Properties *)

(** ** Base43 *)

Section Base43Facts.

(** The fuel of the byte loop suffices: the loop leaves with a value
    below 256, that is, through its own test. *)
Lemma base43_while_bound (fuel : nat) :
  forall long_value result,
    0 <= long_value < 2 ^ (Z.of_nat fuel + 1) ->
    fst (base43_while fuel long_value result) < 256.
Proof.
  induction fuel as [|fuel IH]; intros v acc [Hlo Hhi]; cbn [base43_while].
  - destruct (Z.ltb_spec v 256); cbn; lia.
  - destruct (Z.ltb_spec v 256); [cbn; lia|].
    apply IH. split; [apply Z.div_pos; lia|].
    apply Z.div_lt_upper_bound; [lia|].
    replace (Z.of_nat (S fuel) + 1) with (Z.succ (Z.of_nat fuel + 1)) in Hhi by lia.
    rewrite Z.pow_succ_r in Hhi by lia.
    assert (0 < 2 ^ (Z.of_nat fuel + 1)) by (apply Z.pow_pos_nonneg; lia).
    lia.
Qed.

Lemma base43_while_exits (long_value : Z) (result : bytes) :
  0 <= long_value ->
  fst (base43_while (base43_while_fuel long_value) long_value result) < 256.
Proof.
  intros Hlo. destruct (Z.eq_dec long_value 0) as [->|Hne]; [reflexivity|].
  apply base43_while_bound. split; [done|].
  unfold base43_while_fuel. rewrite Z2Nat.id by apply Z.log2_nonneg.
  apply Z.log2_spec. lia.
Qed.

(** The value the digits sum up to is never negative. *)
Lemma base43_accumulate_nonneg (v : bytes) :
  forall long_value power_of_base n,
    0 <= long_value -> 0 <= power_of_base ->
    base43_accumulate base43_table v long_value power_of_base = Ok n ->
    0 <= n.
Proof.
  induction v as [|c v IH]; intros lv pw n Hlv Hpw; cbn [base43_accumulate].
  - intros [= <-]. done.
  - destruct (Z.eqb_spec (bytes_find c base43_table) (-1)) as [|Hd]; [done|].
    apply IH; [|lia].
    assert (0 <= bytes_find c base43_table); [|nia].
    clear -Hd. revert Hd. generalize base43_table as l.
    induction l as [|d l IHl]; cbn; [done|].
    destruct (d =? c); [lia|].
    destruct (Z.eqb_spec (bytes_find c l) (-1)); [done|].
    intros _. specialize (IHl ltac:(done)). lia.
Qed.

(** A text of [n] zero characters. *)
Lemma encode_ascii_zeros (n : nat) :
  encode_ascii (string_of_list_ascii (replicate n "0"%char)) = Ok (replicate n 48).
Proof. induction n as [|n IH]; [done|]. cbn. by rewrite IH. Qed.

Lemma base43_accumulate_zeros (n : nat) :
  forall power_of_base,
    base43_accumulate base43_table (replicate n 48) 0 power_of_base = Ok 0.
Proof.
  induction n as [|n IH]; intros pw; [done|].
  cbn [replicate base43_accumulate].
  change (bytes_find 48 base43_table) with 0.
  cbn [Z.eqb]. apply IH.
Qed.

Lemma base43_nPad_zeros (n : nat) : base43_nPad 48 (replicate n 48) = n.
Proof. induction n as [|n IH]; [done|]. cbn. by rewrite IH. Qed.

Lemma rev_replicate {A} (x : A) (n : nat) : rev (replicate n x) = replicate n x.
Proof.
  induction n as [|n IH]; [done|]. cbn. rewrite IH.
  clear IH. induction n as [|n IH]; [done|]. cbn. by rewrite IH.
Qed.

(** A text of [n] zero characters decodes to [n + 1] zero bytes: the
    byte of the value zero, which is always written, and one pad byte
    for every character. *)
Lemma base43Decode_zeros (n : nat) :
  base43Decode (string_of_list_ascii (replicate n "0"%char))
  = Ok (replicate (S n) 0).
Proof.
  unfold base43Decode. rewrite encode_ascii_zeros. cbn [mbind res_bind].
  rewrite rev_replicate, base43_accumulate_zeros. cbn [mbind res_bind].
  change (nth 0 base43_table 0) with 48. rewrite base43_nPad_zeros.
  cbn [base43_while_fuel base43_while Z.ltb Z.compare app].
  f_equal. change (rev (0 :: repeat 0 n) = 0 :: replicate n 0).
  cbn [rev]. replace (repeat 0 n) with (replicate n 0).
  - rewrite rev_replicate. clear. induction n as [|n IH]; [done|]. cbn. by rewrite IH.
  - clear. induction n as [|n IH]; [done|]. cbn. by rewrite IH.
Qed.

(** C4, as the claim states it, fails: the decoder gives four bytes for
    the three characters. *)
Lemma base43Decode_000_not_three_bytes : base43Decode "000" <> Ok [0; 0; 0].
Proof. vm_compute. discriminate. Qed.

(** C4 (amended): the base43 decode of the text [000] is exactly the four
    bytes 00 00 00 00.  The three zero characters are preserved as three
    0x00 pad bytes, and they come on top of the byte of the value zero,
    which the decoder always writes; in general a text of [n] zero
    characters decodes to [n + 1] zero bytes. *)
Theorem base43Decode_000 :
  base43Decode "000" = Ok [0; 0; 0; 0] /\
  forall n : nat,
    base43Decode (string_of_list_ascii (replicate n "0"%char))
    = Ok (replicate (S n) 0).
Proof. split; [exact (base43Decode_zeros 3)|exact base43Decode_zeros]. Qed.

End Base43Facts.

(** ** The session: a locked type, and a total that changes *)

Section SessionFacts.
Context `{Collaborators} `{Constants}.

(** With a wordlist at hand the classifier always returns a type. *)
Lemma SegmentType_total (s : string) (wl : list string) :
  exists ty, SegmentType s (Some wl) = Ok ty.
Proof.
  unfold SegmentType, all_in. cbn [mbind res_bind].
  repeat case_match; eauto.
Qed.

Lemma set_specter_qr_same (self : DecodeQR.t) :
  DecodeQR.set_specter_qr (DecodeQR.specter_qr self) self = self.
Proof. by destruct self. Qed.

(** C2: in a session whose type is locked, a frame that the classifier
    gives another type makes [addString] raise; the exception is not a
    status (in particular not the status Invalid), and the session is
    left as it was. *)
Theorem addString_type_change
    (self : DecodeQR.t) (qr_str : string) (locked : QRType) :
  DecodeQR.qr_type self = Some locked ->
  SegmentType qr_str (Some (DecodeQR.wordlist self)) <> Ok locked ->
  DecodeQR.addString (Some qr_str) self
    = (Raise (Exception "QR Fragement Unexpected Type Change"), self) /\
  forall status : DecodeQRStatus,
    fst (DecodeQR.addString (Some qr_str) self) <> Ok status.
Proof.
  intros Hlocked Hother.
  destruct (SegmentType_total qr_str (DecodeQR.wordlist self)) as [ty Hty].
  assert (Hne : locked <> ty) by (intros ->; contradiction).
  assert (Hrun : DecodeQR.addString (Some qr_str) self
                 = (Raise (Exception "QR Fragement Unexpected Type Change"), self)).
  { unfold DecodeQR.addString, mbind, M_bind, get, lift.
    rewrite Hty, Hlocked. rewrite bool_decide_true by done. reflexivity. }
  split; [exact Hrun|]. intros status. rewrite Hrun. discriminate.
Qed.

(** The Specter decoder raises when the total of a frame differs from
    the one it holds. *)
Lemma SpecterDecodePSBTQR_total_changed
    (self : SegmentSet.t) (segment : string) (n m : Z) :
  SegmentSet.total_segments self = Some n ->
  SpecterDecodePSBTQR.totalSegmentNum segment = Ok m ->
  m <> n ->
  SpecterDecodePSBTQR.add segment self
    = (Raise (Exception "Specter Desktop segment total changed unexpectedly"), self).
Proof.
  intros Hn Hm Hne.
  unfold SpecterDecodePSBTQR.add, SegmentSet.add, mbind, M_bind, get, lift.
  rewrite Hn, Hm. rewrite bool_decide_true by congruence. reflexivity.
Qed.

(** C3: a Specter PSBT reassembly whose total is established raises the
    exception [Specter Desktop segment total changed unexpectedly] on a
    frame that reports another total, in the decoder and through the
    session alike; no status is returned and nothing is written. *)
Theorem specter_segment_total_mismatch
    (self : DecodeQR.t) (qr_str : string) (n m : Z) :
  DecodeQR.qr_type self = Some PSBTSPECTER ->
  SegmentType qr_str (Some (DecodeQR.wordlist self)) = Ok PSBTSPECTER ->
  SegmentSet.total_segments (DecodeQR.specter_qr self) = Some n ->
  SpecterDecodePSBTQR.totalSegmentNum qr_str = Ok m ->
  m <> n ->
  SpecterDecodePSBTQR.add qr_str (DecodeQR.specter_qr self)
    = (Raise (Exception "Specter Desktop segment total changed unexpectedly"),
       DecodeQR.specter_qr self) /\
  DecodeQR.addString (Some qr_str) self
    = (Raise (Exception "Specter Desktop segment total changed unexpectedly"), self) /\
  fst (DecodeQR.addString (Some qr_str) self) <> Ok INVALID_STATUS.
Proof.
  intros Hlocked Hty Hn Hm Hne.
  pose proof (SpecterDecodePSBTQR_total_changed _ _ _ _ Hn Hm Hne) as Hadd.
  assert (Hrun : DecodeQR.addString (Some qr_str) self
    = (Raise (Exception "Specter Desktop segment total changed unexpectedly"), self)).
  { unfold DecodeQR.addString, DecodeQR.mirror, DecodeQR.call,
      mbind, M_bind, get, lift.
    rewrite Hty, Hlocked. rewrite bool_decide_false by (intros E; by apply E).
    cbn [mret M_ret]. rewrite Hlocked, Hadd.
    by rewrite set_specter_qr_same. }
  split; [exact Hadd|]. split; [exact Hrun|]. rewrite Hrun. discriminate.
Qed.

End SessionFacts.

Lemma addString_type_change_witness :
  let self :=
    snd (@DecodeQR.addString sample_collaborators sample_constants
           (Some "p1of3 AAAA") (@fresh_session sample_collaborators sample_wordlist)) in
  @DecodeQR.addString sample_collaborators sample_constants (Some "cHNidP8=") self
    = (Raise (Exception "QR Fragement Unexpected Type Change"), self) /\
  forall status : DecodeQRStatus,
    fst (@DecodeQR.addString sample_collaborators sample_constants
           (Some "cHNidP8=") self) <> Ok status.
Proof.
  intros self.
  apply (@addString_type_change sample_collaborators sample_constants
           self "cHNidP8=" PSBTSPECTER).
  - reflexivity.
  - vm_compute. discriminate.
Defined.

Lemma specter_segment_total_mismatch_witness :
  let self :=
    snd (@DecodeQR.addString sample_collaborators sample_constants
           (Some "p1of3 AAAA") (@fresh_session sample_collaborators sample_wordlist)) in
  @SpecterDecodePSBTQR.add sample_collaborators "p2of5 BBBB" (DecodeQR.specter_qr self)
    = (Raise (Exception "Specter Desktop segment total changed unexpectedly"),
       DecodeQR.specter_qr self) /\
  @DecodeQR.addString sample_collaborators sample_constants (Some "p2of5 BBBB") self
    = (Raise (Exception "Specter Desktop segment total changed unexpectedly"), self) /\
  fst (@DecodeQR.addString sample_collaborators sample_constants (Some "p2of5 BBBB") self)
    <> Ok INVALID_STATUS.
Proof.
  intros self.
  apply (@specter_segment_total_mismatch sample_collaborators sample_constants
           self "p2of5 BBBB" 3 5); try reflexivity.
  vm_compute. discriminate.
Defined.

(** ** The settings decoder on the two frames of the specification *)

Section SettingsExamples.
Context `{Constants}.

(** C8: the frame [type=settings version=1 name=My_Wallet xpub=1] is
    Complete, the display name is [My Wallet], and the settings are the
    category [features] with [xpub_export] set to the constant for
    "enabled" (a constant that counts as true, as every non-empty text
    does); the frame [type=settings version=2] is Invalid and leaves the
    decoder incomplete. *)
Theorem SettingsQR_examples :
  nonempty OPTION__ENABLED = true ->
  (let '(status, self) :=
     SettingsQR.add "type=settings version=1 name=My_Wallet xpub=1" SETTINGS
       SettingsQR.init in
   status = Ok COMPLETE /\
   SettingsQR.complete self = true /\
   SettingsQR.config_name self = Some "My Wallet" /\
   SettingsQR.settings self
     = {[ "features" :=
            SettingsQR.Category {[ "xpub_export" := SettingsQR.MStr OPTION__ENABLED ]} ]}) /\
  (let '(status, self) :=
     SettingsQR.add "type=settings version=2" SETTINGS SettingsQR.init in
   status = Ok INVALID_STATUS /\ SettingsQR.complete self = false).
Proof.
  intros Henabled.
  destruct OPTION__ENABLED as [|c enabled] eqn:E; [discriminate|].
  split.
  - unfold SettingsQR.add, SettingsQR.convert_all, SettingsQR.map_abbreviated_enable.
    rewrite E. vm_compute. repeat split; reflexivity.
  - vm_compute. split; reflexivity.
Qed.

End SettingsExamples.

Lemma SettingsQR_examples_witness :
  (let '(status, self) :=
     @SettingsQR.add sample_constants "type=settings version=1 name=My_Wallet xpub=1"
       SETTINGS SettingsQR.init in
   status = Ok COMPLETE /\
   SettingsQR.complete self = true /\
   SettingsQR.config_name self = Some "My Wallet" /\
   SettingsQR.settings self
     = {[ "features" := SettingsQR.Category {[ "xpub_export" := SettingsQR.MStr "E" ]} ]}) /\
  (let '(status, self) :=
     @SettingsQR.add sample_constants "type=settings version=2" SETTINGS SettingsQR.init in
   status = Ok INVALID_STATUS /\ SettingsQR.complete self = false).
Proof. apply (@SettingsQR_examples sample_constants). reflexivity. Defined.

(** ** The constructor of the seed model *)

Section SeedFacts.
Context `{SeedCollaborators}.

Lemma right_amount_spec (n : nat) :
  Seed.right_amount n = true <-> n ∈ [12; 13; 24; 25]%nat.
Proof. unfold Seed.right_amount. by rewrite bool_decide_eq_true. Qed.

(** What the constructor does once the two guards on the mnemonic have
    let it through: the three ways the rest of it can end. *)
Lemma Seed_init_after_guards
    (mnemonic : list string) (passphrase : option string) (lang : string) :
  length mnemonic ∈ [12; 13; 24; 25]%nat ->
  (exists self, Seed.init (Some mnemonic) passphrase lang = Ok self) \/
  Seed.init (Some mnemonic) passphrase lang = Raise Seed.passwords_not_implemented \/
  Seed.init (Some mnemonic) passphrase lang = Raise InvalidSeedException.
Proof.
  intros Hlen. unfold Seed.init.
  destruct mnemonic as [|w ws]; [by apply right_amount_spec in Hlen|].
  apply right_amount_spec in Hlen. rewrite Hlen. cbn [negb].
  unfold Seed.set_passphrase, Seed._generate_seed, Seed.passphrase,
    try_catch, mbind, M_bind, modify, get, put, raise, lift, mret, M_ret.
  cbn [Seed._passphrase Seed.wordlist_language_code Seed._mnemonic].
  destruct passphrase as [p|]; [destruct (nonempty p)|]; eauto;
    destruct (ALL_WORDLIST_LANGUAGE_ENGLISH__NAMES !! lang); eauto;
    destruct (MoneroSeed_bytes _ _); eauto.
Qed.

(** C9: the constructor of the seed model raises for an absent or empty
    mnemonic and for every word count other than 12, 13, 24 and 25; a
    mnemonic of 12, 13, 24 or 25 words passes both guards (what is
    raised for it, if anything, is not about its word count), and with
    no passphrase and a phrase the seed library accepts the seed object
    is built. *)
Theorem Seed_init_word_count (passphrase : option string) (lang : string) :
  Seed.init None passphrase lang = Raise Seed.must_initialize /\
  Seed.init (Some []) passphrase lang = Raise Seed.must_initialize /\
  (forall mnemonic : list string,
      mnemonic <> [] ->
      length mnemonic ∉ [12; 13; 24; 25]%nat ->
      Seed.init (Some mnemonic) passphrase lang
        = Raise (Seed.wrong_amount (length mnemonic))) /\
  (forall mnemonic : list string,
      length mnemonic ∈ [12; 13; 24; 25]%nat ->
      Seed.init (Some mnemonic) passphrase lang <> Raise Seed.must_initialize /\
      forall k : nat,
        Seed.init (Some mnemonic) passphrase lang <> Raise (Seed.wrong_amount k)) /\
  (forall (mnemonic : list string) (name : string) (seed : bytes),
      length mnemonic ∈ [12; 13; 24; 25]%nat ->
      passphrase = None \/ passphrase = Some "" ->
      ALL_WORDLIST_LANGUAGE_ENGLISH__NAMES !! lang = Some name ->
      let words :=
        py_split_ws (unicodedata_normalize "NFKD" (py_strip (py_join " " mnemonic))) in
      MoneroSeed_bytes (py_join " " words) name = Ok seed ->
      Seed.init (Some mnemonic) passphrase lang
        = Ok {| Seed.wordlist_language_code := lang;
                Seed._mnemonic := words;
                Seed._passphrase := None;
                Seed.seed_bytes := Some seed |}).
Proof.
  split; [done|]. split; [done|]. split; [|split].
  - intros mnemonic Hne Hlen. unfold Seed.init.
    destruct mnemonic as [|w ws]; [done|].
    destruct (Seed.right_amount (length (w :: ws))) eqn:E; [|done].
    apply right_amount_spec in E. contradiction.
  - intros mnemonic Hlen.
    destruct (Seed_init_after_guards mnemonic passphrase lang Hlen)
      as [[self ->]|[->| ->]]; split; try intros k; discriminate.
  - intros mnemonic name seed Hlen Hpass Hname words Hseed. unfold Seed.init.
    destruct mnemonic as [|w ws]; [by apply right_amount_spec in Hlen|].
    apply right_amount_spec in Hlen. rewrite Hlen. cbn [negb].
    unfold Seed.set_passphrase, Seed._generate_seed, Seed.passphrase,
      Seed.mnemonic_str, try_catch, mbind, M_bind, modify, get, put, raise,
      lift, mret, M_ret.
    cbn [Seed._passphrase Seed.wordlist_language_code Seed._mnemonic].
    fold words.
    destruct Hpass as [-> | ->]; cbn [nonempty]; by rewrite Hname, Hseed.
Qed.

End SeedFacts.

Lemma Seed_init_word_count_witness :
  @Seed.init sample_seed_collaborators (Some (replicate 11 "abbey")) None "en"
    = Raise (Seed.wrong_amount 11) /\
  @Seed.init sample_seed_collaborators (Some (replicate 13 "abbey")) None "en"
    = Ok {| Seed.wordlist_language_code := "en";
            Seed._mnemonic := replicate 13 "abbey";
            Seed._passphrase := None;
            Seed.seed_bytes := Some [] |}.
Proof.
  destruct (@Seed_init_word_count sample_seed_collaborators None "en")
    as (_ & _ & Hwrong & _ & Hright).
  split.
  - apply (Hwrong (replicate 11 "abbey")); [discriminate|].
    apply (proj1 (bool_decide_eq_false _)). reflexivity.
  - apply (Hright (replicate 13 "abbey") "English" []).
    + apply (proj1 (bool_decide_eq_true _)). reflexivity.
    + by left.
    + reflexivity.
    + reflexivity.
Defined.

(** ** The numeric seed *)

Section SeedQRFacts.
Context `{Collaborators}.

Lemma set_seed_phrase_same (self : SeedQR.t) :
  SeedQR.set_seed_phrase (SeedQR.seed_phrase self) self = self.
Proof. by destruct self. Qed.

(** One round of the loop reads one group. *)
Lemma numeric_loop_step (segment : string) (i n : nat) (self : SeedQR.t) :
  SeedQR.numeric_loop segment i (S n) self
  = match numeric_word (SeedQR.wordlist self) segment i with
    | Ok word =>
        SeedQR.numeric_loop segment (S i) n
          (SeedQR.set_seed_phrase (SeedQR.seed_phrase self ++ [word]) self)
    | Raise e => (Raise e, self)
    end.
Proof.
  cbn [SeedQR.numeric_loop].
  unfold numeric_word, numeric_group, mbind, M_bind, res_bind, lift, get, modify.
  destruct (py_int _); [|done]. by destruct (py_getitem _ _).
Qed.

(** The loop against the reading: when every group gives a word, the
    loop appends the words. *)
Lemma numeric_loop_ok (segment : string) (n : nat) :
  forall (i : nat) (self : SeedQR.t) (words : list string),
    mapM (numeric_word (SeedQR.wordlist self) segment) (seq i n) = Ok words ->
    SeedQR.numeric_loop segment i n self
    = (Ok tt, SeedQR.set_seed_phrase (SeedQR.seed_phrase self ++ words) self).
Proof.
  induction n as [|n IH]; intros i self words.
  - intros [= <-]. cbn. by rewrite app_nil_r, set_seed_phrase_same.
  - rewrite numeric_loop_step. cbn [seq mapM]. unfold mbind, res_bind.
    destruct (numeric_word _ segment i) as [word|e]; [|done].
    destruct (mapM _ (seq (S i) n)) as [rest|e] eqn:Hrest; [|done].
    intros [= <-].
    rewrite (IH (S i) _ rest) by exact Hrest.
    cbn [SeedQR.seed_phrase SeedQR.set_seed_phrase].
    by rewrite <- app_assoc.
Qed.

(** When a group fails, the loop raises, with the words of the groups
    before it appended. *)
Lemma numeric_loop_raise (segment : string) (n : nat) :
  forall (i : nat) (self : SeedQR.t) (e : exn),
    mapM (numeric_word (SeedQR.wordlist self) segment) (seq i n) = Raise e ->
    exists partial,
      SeedQR.numeric_loop segment i n self
      = (Raise e, SeedQR.set_seed_phrase (SeedQR.seed_phrase self ++ partial) self).
Proof.
  induction n as [|n IH]; intros i self e.
  - discriminate.
  - rewrite numeric_loop_step. cbn [seq mapM]. unfold mbind, res_bind.
    destruct (numeric_word _ segment i) as [word|e'].
    2:{ intros [= <-]. exists []. by rewrite app_nil_r, set_seed_phrase_same. }
    destruct (mapM _ (seq (S i) n)) as [rest|e'] eqn:Hrest; [done|].
    intros [= <-].
    destruct (IH (S i) (SeedQR.set_seed_phrase (SeedQR.seed_phrase self ++ [word]) self)
                e' Hrest) as [partial Hloop].
    exists (word :: partial). rewrite Hloop.
    cbn [SeedQR.seed_phrase SeedQR.set_seed_phrase].
    by rewrite <- app_assoc.
Qed.

Lemma mapM_res_length {A B} (f : A -> res B) (l : list A) (k : list B) :
  mapM f l = Ok k -> length k = length l.
Proof.
  revert k. induction l as [|x l IH]; intros k; cbn [mapM].
  - by intros [= <-].
  - unfold mbind, res_bind. destruct (f x); [|done].
    destruct (mapM f l) as [k'|]; [|done].
    intros [= <-]. cbn. by rewrite (IH k').
Qed.

(** The numeric branch on a reading that gives every word. *)
Lemma SeedQR_add_numeric_ok (self : SeedQR.t) (segment : string) (words : list string) :
  numeric_words (SeedQR.wordlist self) segment = Ok words ->
  SeedQR.add segment SEEDSSQR self
  = if bool_decide (length words = 12%nat) || bool_decide (length words = 24%nat)
    then (Ok COMPLETE, SeedQR.set_done (SeedQR.set_seed_phrase words self))
    else (Ok INVALID_STATUS, SeedQR.set_seed_phrase words self).
Proof.
  intros Hwords. unfold numeric_words in Hwords.
  pose proof (numeric_loop_ok segment _ 0 (SeedQR.set_seed_phrase [] self) words Hwords)
    as Hloop.
  unfold SeedQR.add. rewrite bool_decide_true by done.
  unfold try_catch, SeedQR.finish, SeedQR.is1224Phrase, mbind, M_bind, get, modify,
    mret, M_ret.
  rewrite Hloop.
  cbv [SeedQR.set_seed_phrase SeedQR.set_done SeedQR.seed_phrase SeedQR.wordlist
       SeedQR.total_segments SeedQR.collected_segments SeedQR.complete app].
  destruct words as [|w ws].
  - rewrite bool_decide_false by (simpl; lia). reflexivity.
  - rewrite bool_decide_true by (simpl; lia).
    by destruct (bool_decide (length (w :: ws) = 12%nat)
                 || bool_decide (length (w :: ws) = 24%nat)).
Qed.

(** The numeric branch on a reading that fails at some group. *)
Lemma SeedQR_add_numeric_raise (self : SeedQR.t) (segment : string) (e : exn) :
  numeric_words (SeedQR.wordlist self) segment = Raise e ->
  exists partial,
    SeedQR.add segment SEEDSSQR self
    = (Ok INVALID_STATUS, SeedQR.set_seed_phrase partial self).
Proof.
  intros He. unfold numeric_words in He.
  destruct (numeric_loop_raise segment _ 0 (SeedQR.set_seed_phrase [] self) e He)
    as [partial Hloop].
  exists partial. unfold SeedQR.add. rewrite bool_decide_true by done.
  unfold try_catch, mbind, M_bind, get, modify, mret, M_ret.
  rewrite Hloop. unfold SeedQR.set_seed_phrase. simpl. reflexivity.
Qed.

End SeedQRFacts.

Section SeedQRNumeric.
Context `{Collaborators}.

(** The numeric branch of [SeedQR.add] against the reading of the frame:
    it reads the first [len / 4] groups of four characters, each through
    [int()] and Python's list indexing.  When every group gives a word the
    decode is Complete if there are 12 or 24 words and Invalid otherwise;
    when a group fails the decode is Invalid, with the words read before
    the failure left in the phrase.  The branch never raises. *)
Theorem SeedQR_add_numeric (self : SeedQR.t) (segment : string) :
  match numeric_words (SeedQR.wordlist self) segment with
  | Ok words =>
      length words = (String.length segment / 4)%nat /\
      SeedQR.add segment SEEDSSQR self
      = if bool_decide (length words = 12%nat) || bool_decide (length words = 24%nat)
        then (Ok COMPLETE, SeedQR.set_done (SeedQR.set_seed_phrase words self))
        else (Ok INVALID_STATUS, SeedQR.set_seed_phrase words self)
  | Raise _ =>
      exists partial,
        SeedQR.add segment SEEDSSQR self
        = (Ok INVALID_STATUS, SeedQR.set_seed_phrase partial self)
  end.
Proof.
  destruct (numeric_words (SeedQR.wordlist self) segment) as [words|e] eqn:Hw.
  - split; [|by apply SeedQR_add_numeric_ok].
    unfold numeric_words in Hw.
    rewrite (mapM_res_length _ _ _ Hw). apply length_seq.
  - by apply (SeedQR_add_numeric_raise self segment e).
Qed.

Lemma py_getitem_elem_of {A} (l : list A) (i : Z) (x : A) :
  py_getitem l i = Ok x -> x ∈ l.
Proof.
  unfold py_getitem, py_position, mbind, res_bind.
  destruct (_ || _); [done|].
  destruct (l !! _) as [y|] eqn:Hy; [|done].
  intros [= <-]. by eapply list_elem_of_lookup_2.
Qed.

Lemma numeric_words_elem_of (wl : list string) (segment : string)
    (l : list nat) (words : list string) :
  mapM (numeric_word wl segment) l = Ok words ->
  Forall (fun w => w ∈ wl) words.
Proof.
  revert words. induction l as [|i l IH]; intros words; cbn [mapM].
  - intros [= <-]. constructor.
  - unfold mbind, res_bind.
    destruct (numeric_word wl segment i) as [w|] eqn:Hw; [|done].
    destruct (mapM _ l) as [ws|]; [|done].
    intros [= <-]. constructor; [|by apply IH].
    unfold numeric_word, mbind, res_bind in Hw.
    destruct (py_int _); [|done]. by eapply py_getitem_elem_of.
Qed.

(** When the numeric branch returns Complete, the decoder is complete and
    the phrase it hands out has 12 or 24 words, every one of them a word
    of the wordlist. *)
Theorem SeedQR_numeric_complete_phrase
    (self self' : SeedQR.t) (segment : string) :
  SeedQR.add segment SEEDSSQR self = (Ok COMPLETE, self') ->
  SeedQR.complete self' = true /\
  (length (SeedQR.getSeedPhrase self') = 12%nat \/
   length (SeedQR.getSeedPhrase self') = 24%nat) /\
  Forall (fun w => w ∈ SeedQR.wordlist self) (SeedQR.getSeedPhrase self').
Proof.
  pose proof (SeedQR_add_numeric self segment) as Hadd.
  destruct (numeric_words (SeedQR.wordlist self) segment) as [words|e] eqn:Hw.
  - destruct Hadd as [_ ->].
    destruct (bool_decide (length words = 12%nat) || bool_decide (length words = 24%nat))
      eqn:E; [|discriminate].
    intros [= <-]. split; [reflexivity|].
    unfold SeedQR.getSeedPhrase. cbn. split.
    + apply orb_true_iff in E. destruct E as [E|E]; apply bool_decide_eq_true in E; auto.
    + unfold numeric_words in Hw. by eapply numeric_words_elem_of.
  - destruct Hadd as [partial ->]. discriminate.
Qed.


End SeedQRNumeric.

Lemma SeedQR_numeric_complete_phrase_witness :
  let self := fresh_seedqr sample_wordlist in
  let self' := snd (@SeedQR.add sample_collaborators numeric_seed_49 SEEDSSQR self) in
  SeedQR.complete self' = true /\
  (length (SeedQR.getSeedPhrase self') = 12%nat \/
   length (SeedQR.getSeedPhrase self') = 24%nat) /\
  Forall (fun w => w ∈ SeedQR.wordlist self) (SeedQR.getSeedPhrase self').
Proof.
  intros self self'.
  apply (@SeedQR_numeric_complete_phrase sample_collaborators self self' numeric_seed_49).
  vm_compute. reflexivity.
Defined.


(** ** The reassemblers *)

Section ReassemblerFacts.
Variables (totalSegmentNum currentSegmentNum : string -> res Z).
Variable parseSegment : string -> string.
Variable total_changed : string.

Local Abbreviation add :=
  (SegmentSet.add totalSegmentNum currentSegmentNum parseSegment total_changed).

Lemma py_position_in_range (len : nat) (i : Z) :
  0 <= i < Z.of_nat len -> py_position len i = Ok (Z.to_nat i).
Proof.
  intros [Hlo Hhi]. unfold py_position.
  destruct (Z.ltb_spec i 0); [lia|].
  destruct (Z.ltb_spec i 0); [lia|].
  destruct (Z.leb_spec (Z.of_nat len) i); [lia|]. reflexivity.
Qed.

(** [add] once the total is known and the frame agrees with it. *)
Lemma add_known_total (self : SegmentSet.t) (segment : string) (n k : Z) :
  SegmentSet.total_segments self = Some n ->
  totalSegmentNum segment = Ok n ->
  currentSegmentNum segment = Ok k ->
  add segment self
  = match py_getitem (SegmentSet.segments self) (k - 1) with
    | Raise e => (Raise e, self)
    | Ok (Some _) => (Ok PART_EXISTING, self)
    | Ok None =>
        match py_setitem (SegmentSet.segments self) (k - 1)
                (Some (parseSegment segment)) with
        | Raise e => (Raise e, self)
        | Ok slots =>
            let self1 :=
              SegmentSet.set_collected_segments
                (SegmentSet.collected_segments self + 1)
                (SegmentSet.set_segments slots self) in
            if bool_decide (n = SegmentSet.collected_segments self + 1)
            then (Ok COMPLETE, SegmentSet.set_complete true self1)
            else (Ok PART_COMPLETE, self1)
        end
    end.
Proof.
  intros Hn Htotal Hcur.
  unfold SegmentSet.add, mbind, M_bind, get, lift, modify, raise, mret, M_ret.
  rewrite Hn, Htotal. rewrite bool_decide_false by (intros E; by apply E).
  rewrite Hcur.
  destruct (py_getitem _ _) as [[x|]|e]; [done| |done].
  destruct (py_setitem _ _ _) as [slots|e]; [|done].
  cbv [SegmentSet.set_collected_segments SegmentSet.set_segments
       SegmentSet.set_complete SegmentSet.total_segments
       SegmentSet.collected_segments SegmentSet.complete SegmentSet.segments].
  destruct self as [t c co sg]. cbn in Hn. subst t.
  destruct (decide (n = c + 1)) as [->|Hne].
  - by rewrite !bool_decide_true by done.
  - rewrite !bool_decide_false by congruence. done.
Qed.

(** The first frame of a reassembly allocates the slots and then goes on
    as any later frame does. *)
Lemma add_first_frame (segment : string) (n : Z) :
  totalSegmentNum segment = Ok n ->
  add segment SegmentSet.init
  = add segment
      {| SegmentSet.total_segments := Some n;
         SegmentSet.collected_segments := 0;
         SegmentSet.complete := false;
         SegmentSet.segments := SegmentSet.empty_slots n |}.
Proof.
  intros Htotal.
  unfold SegmentSet.add, mbind, M_bind, get, lift, modify, raise, mret, M_ret.
  cbn [SegmentSet.total_segments SegmentSet.init].
  rewrite Htotal. rewrite bool_decide_false by (intros E; by apply E).
  reflexivity.
Qed.

(** A frame whose slot is already filled returns PART_EXISTING and
    changes nothing: no slot, no counter, no flag. *)
Theorem segment_add_existing
    (self : SegmentSet.t) (segment : string) (n k : Z) (payload : string) :
  SegmentSet.total_segments self = Some n ->
  totalSegmentNum segment = Ok n ->
  currentSegmentNum segment = Ok k ->
  py_getitem (SegmentSet.segments self) (k - 1) = Ok (Some payload) ->
  add segment self = (Ok PART_EXISTING, self).
Proof.
  intros Hn Htotal Hcur Hslot.
  by rewrite (add_known_total self segment n k Hn Htotal Hcur), Hslot.
Qed.

(** A frame number above the total (or below minus the total plus one)
    raises IndexError, and the reassembly is left as it was. *)
Theorem segment_add_out_of_range
    (self : SegmentSet.t) (segment : string) (n k : Z) :
  SegmentSet.total_segments self = Some n ->
  totalSegmentNum segment = Ok n ->
  currentSegmentNum segment = Ok k ->
  Z.of_nat (length (SegmentSet.segments self)) < k \/
  k <= - Z.of_nat (length (SegmentSet.segments self)) ->
  add segment self = (Raise IndexError, self).
Proof.
  intros Hn Htotal Hcur Hrange.
  rewrite (add_known_total self segment n k Hn Htotal Hcur).
  unfold py_getitem, py_position, mbind, res_bind.
  destruct (Z.ltb_spec (k - 1) 0).
  - destruct (Z.ltb_spec (k - 1 + Z.of_nat (length (SegmentSet.segments self))) 0);
      [done|lia].
  - destruct (Z.ltb_spec (k - 1) 0); [lia|].
    destruct (Z.leb_spec (Z.of_nat (length (SegmentSet.segments self))) (k - 1));
      [done|lia].
Qed.

End ReassemblerFacts.

Section ReassemblerRuns.
Variables (totalSegmentNum currentSegmentNum : string -> res Z).
Variable parseSegment : string -> string.
Variable total_changed : string.

Local Abbreviation add :=
  (SegmentSet.add totalSegmentNum currentSegmentNum parseSegment total_changed).

(** A new frame of the set fills its slot, and it completes the set
    exactly when it is the last one missing. *)
Lemma add_new_frame
    (N : nat) (seen : list Z) (self : SegmentSet.t) (segment : string) (k : Z) :
  collected_exactly N seen self ->
  totalSegmentNum segment = Ok (Z.of_nat N) ->
  currentSegmentNum segment = Ok k ->
  1 <= k <= Z.of_nat N ->
  k ∉ seen ->
  exists self',
    add segment self
    = (Ok (if bool_decide (S (length seen) = N) then COMPLETE else PART_COMPLETE), self') /\
    collected_exactly N (k :: seen) self' /\
    SegmentSet.complete self'
    = (bool_decide (S (length seen) = N) || SegmentSet.complete self).
Proof.
  intros (Htot & Hlen & Hcol & Hslots) Htotal Hcur Hk Hnew.
  rewrite (add_known_total _ _ _ _ self segment _ k Htot Htotal Hcur).
  unfold py_getitem, py_setitem.
  rewrite py_position_in_range by lia. cbn [mbind res_bind].
  assert (Hj : (Z.to_nat (k - 1) < N)%nat) by lia.
  assert (Hempty : SegmentSet.segments self !! Z.to_nat (k - 1) = Some None).
  { apply Hslots; [done|]. by replace (Z.of_nat (Z.to_nat (k - 1)) + 1) with k by lia. }
  rewrite Hempty. rewrite Hcol.
  assert (Hinv : forall c, collected_exactly N (k :: seen)
      {| SegmentSet.total_segments := SegmentSet.total_segments self;
         SegmentSet.collected_segments := Z.of_nat (length seen) + 1;
         SegmentSet.complete := c;
         SegmentSet.segments :=
           <[Z.to_nat (k - 1) := Some (parseSegment segment)]>
             (SegmentSet.segments self) |}).
  { intros c. unfold collected_exactly.
    cbn [SegmentSet.total_segments SegmentSet.segments
         SegmentSet.collected_segments length].
    split; [exact Htot|]. split; [by rewrite length_insert|].
    split; [lia|]. intros j Hjn.
    destruct (decide (j = Z.to_nat (k - 1))) as [->|Hne].
    - rewrite list_lookup_insert_eq by lia. split; [done|].
      intros Hnot. exfalso. apply Hnot.
      replace (Z.of_nat (Z.to_nat (k - 1)) + 1) with k by lia. by left.
    - rewrite list_lookup_insert_ne by done.
      rewrite (Hslots j Hjn). rewrite not_elem_of_cons.
      split; [intros Hs; split; [lia|done]|by intros [_ Hs]]. }
  destruct (decide (S (length seen) = N)) as [E|E].
  - rewrite !bool_decide_true by lia.
    eexists. split; [reflexivity|]. split; [apply Hinv|reflexivity].
  - rewrite !bool_decide_false by lia.
    eexists. split; [reflexivity|]. split; [apply Hinv|reflexivity].
Qed.

Lemma statuses_before_last (N : nat) (len start : nat) :
  (start + len < N)%nat ->
  map (fun c => Ok (if bool_decide (S c = N) then COMPLETE else PART_COMPLETE))
    (seq start len)
  = replicate len (Ok PART_COMPLETE).
Proof.
  revert start. induction len as [|len IH]; intros start Hlt; [done|].
  cbn [seq map replicate]. rewrite bool_decide_false by lia.
  f_equal. apply IH. lia.
Qed.

Lemma statuses_of_a_set (N : nat) :
  (0 < N)%nat ->
  map (fun c => Ok (if bool_decide (S c = N) then COMPLETE else PART_COMPLETE))
    (seq 0 N)
  = (replicate (N - 1)%nat (Ok PART_COMPLETE) ++ [Ok COMPLETE])%list.
Proof.
  intros Hpos. destruct N as [|n]; [lia|].
  replace (S n - 1)%nat with n by lia.
  rewrite seq_S, map_app. cbn [map Nat.add].
  rewrite bool_decide_true by done.
  by rewrite statuses_before_last by lia.
Qed.

(** Frames that agree on the total [N] and carry the numbers [ks]. *)
Local Abbreviation frames_of N fs ks :=
  (Forall2 (fun f k => totalSegmentNum f = Ok (Z.of_nat N) /\
                       currentSegmentNum f = Ok k) fs ks).

Lemma run_new_frames (N : nat) (fs : list string) (ks : list Z) :
  frames_of N fs ks ->
  forall (seen : list Z) (self : SegmentSet.t),
    collected_exactly N seen self ->
    Forall (fun k => 1 <= k <= Z.of_nat N) ks ->
    NoDup (ks ++ seen) ->
    exists self',
      run add fs self
      = (map (fun c => Ok (if bool_decide (S c = N) then COMPLETE else PART_COMPLETE))
           (seq (length seen) (length ks)), self') /\
      collected_exactly N (rev ks ++ seen) self' /\
      (ks <> [] -> (length ks + length seen = N)%nat ->
       SegmentSet.complete self' = true).
Proof.
  induction 1 as [|f k fs ks [Htotal Hcur] Hrest IH]; intros seen self Hinv Hrange Hdup.
  - exists self. cbn. split; [done|]. split; [done|]. by intros Hne.
  - apply Forall_cons in Hrange as [Hk Hrange].
    cbn [app] in Hdup. apply NoDup_cons in Hdup as [Hnew Hdup].
    apply not_elem_of_app in Hnew as [Hnew_ks Hnew].
    destruct (add_new_frame N seen self f k Hinv Htotal Hcur Hk Hnew)
      as (self1 & Hadd & Hinv1 & Hflag).
    destruct (IH (k :: seen) self1 Hinv1 Hrange) as (self' & Hrun & Hinv' & Hdone).
    { apply NoDup_app. apply NoDup_app in Hdup as (Hks & Hdisj & Hseen).
      split; [done|]. split.
      - intros x Hx. rewrite not_elem_of_cons. split; [by intros ->|by apply Hdisj].
      - by apply NoDup_cons. }
    exists self'. cbn [run length seq map]. rewrite Hadd, Hrun.
    split; [reflexivity|]. split.
    + cbn [rev]. by rewrite <- app_assoc.
    + intros _ Hcount. destruct ks as [|k' ks'].
      * apply Forall2_nil_inv_r in Hrest as ->. cbn in Hrun. injection Hrun as <-.
        rewrite Hflag. rewrite bool_decide_true by (cbn in Hcount; lia). done.
      * apply Hdone; [done|]. cbn [length] in *. lia.
Qed.

(** The [N] frames of an [N]-frame set, each once and in any order, from a
    new reassembler: every one but the last returns PART_COMPLETE, the
    last returns COMPLETE, and the reassembler is then complete with [N]
    frames counted. *)
Theorem segment_add_all_distinct (N : nat) (fs : list string) (ks : list Z) :
  (0 < N)%nat ->
  length ks = N ->
  frames_of N fs ks ->
  Forall (fun k => 1 <= k <= Z.of_nat N) ks ->
  NoDup ks ->
  exists self',
    run add fs SegmentSet.init
    = ((replicate (N - 1)%nat (Ok PART_COMPLETE) ++ [Ok COMPLETE])%list, self') /\
    SegmentSet.complete self' = true /\
    SegmentSet.collected_segments self' = Z.of_nat N.
Proof.
  intros Hpos Hlen Hframes Hrange Hdup.
  set (start := {| SegmentSet.total_segments := Some (Z.of_nat N);
                   SegmentSet.collected_segments := 0;
                   SegmentSet.complete := false;
                   SegmentSet.segments := SegmentSet.empty_slots (Z.of_nat N) |}).
  assert (Hstart : collected_exactly N [] start).
  { unfold collected_exactly, start, SegmentSet.empty_slots.
    cbn [SegmentSet.total_segments SegmentSet.segments
         SegmentSet.collected_segments length].
    rewrite Nat2Z.id, length_replicate.
    split; [reflexivity|]. split; [reflexivity|]. split; [reflexivity|].
    intros j Hj. rewrite lookup_replicate_2 by exact Hj.
    split; [intros _; apply not_elem_of_nil|reflexivity]. }
  assert (Hinit : run add fs SegmentSet.init = run add fs start).
  { destruct Hframes as [|f k fs ks [Htotal _] _]; [cbn in Hlen; lia|].
    cbn [run]. by rewrite (add_first_frame _ _ _ _ f _ Htotal). }
  destruct (run_new_frames N fs ks Hframes [] start Hstart Hrange)
    as (self' & Hrun & Hinv & Hdone); [by rewrite app_nil_r|].
  exists self'. rewrite Hinit, Hrun. split; [|split].
  - f_equal. cbn [length]. rewrite Hlen. by apply statuses_of_a_set.
  - apply Hdone; [|cbn; lia]. intros ->. cbn in Hlen. lia.
  - destruct Hinv as (_ & _ & Hcol & _). rewrite Hcol.
    by rewrite length_app, length_rev, Hlen, Nat.add_0_r.
Qed.

End ReassemblerRuns.

Lemma segment_add_existing_witness :
  let self :=
    snd (@SpecterDecodePSBTQR.add sample_collaborators "p1of3 AAAA" SegmentSet.init) in
  @SpecterDecodePSBTQR.add sample_collaborators "p1of3 AAAA" self
    = (Ok PART_EXISTING, self) /\
  let self :=
    snd (@LegacyURDecodeQR.add sample_collaborators "UR:BYTES/2OF2/tyq/abc" SegmentSet.init) in
  @LegacyURDecodeQR.add sample_collaborators "ur:bytes/2of2/tyq/xyz" self
    = (Ok PART_EXISTING, self).
Proof.
  split.
  - set (self := snd (@SpecterDecodePSBTQR.add sample_collaborators "p1of3 AAAA"
                        SegmentSet.init)).
    apply (segment_add_existing
             (@SpecterDecodePSBTQR.totalSegmentNum sample_collaborators)
             (@SpecterDecodePSBTQR.currentSegmentNum sample_collaborators)
             SpecterDecodePSBTQR.parseSegment
             "Specter Desktop segment total changed unexpectedly" self "p1of3 AAAA" 3 1 "AAAA");
      reflexivity.
  - set (self := snd (@LegacyURDecodeQR.add sample_collaborators "UR:BYTES/2OF2/tyq/abc"
                        SegmentSet.init)).
    apply (segment_add_existing
             (@LegacyURDecodeQR.totalSegmentNum sample_collaborators)
             (@LegacyURDecodeQR.currentSegmentNum sample_collaborators)
             LegacyURDecodeQR.parseSegment
             "UR Legacy segment total changed unexpectedly" self "ur:bytes/2of2/tyq/xyz" 2 2 "abc");
      reflexivity.
Defined.

Lemma segment_add_out_of_range_witness :
  let self :=
    snd (@SpecterDecodePSBTQR.add sample_collaborators "p1of3 AAAA" SegmentSet.init) in
  @SpecterDecodePSBTQR.add sample_collaborators "p4of3 DDDD" self
    = (Raise IndexError, self).
Proof.
  intros self.
  apply (segment_add_out_of_range
           (@SpecterDecodePSBTQR.totalSegmentNum sample_collaborators)
           (@SpecterDecodePSBTQR.currentSegmentNum sample_collaborators)
           SpecterDecodePSBTQR.parseSegment
             "Specter Desktop segment total changed unexpectedly" self "p4of3 DDDD" 3 4);
    try reflexivity.
  left. reflexivity.
Defined.

Lemma segment_add_all_distinct_witness :
  (exists self',
      run (@SpecterDecodePSBTQR.add sample_collaborators)
        ["p2of3 BBBB"; "p3of3 CCCC"; "p1of3 AAAA"] SegmentSet.init
      = ([Ok PART_COMPLETE; Ok PART_COMPLETE; Ok COMPLETE], self') /\
      SegmentSet.complete self' = true /\
      SegmentSet.collected_segments self' = 3) /\
  (exists self',
      run (@LegacyURDecodeQR.add sample_collaborators)
        ["UR:BYTES/2OF2/tyq/abc"; "UR:BYTES/1OF2/tyq/def"] SegmentSet.init
      = ([Ok PART_COMPLETE; Ok COMPLETE], self') /\
      SegmentSet.complete self' = true /\
      SegmentSet.collected_segments self' = 2).
Proof.
  split.
  - apply (segment_add_all_distinct
             (@SpecterDecodePSBTQR.totalSegmentNum sample_collaborators)
             (@SpecterDecodePSBTQR.currentSegmentNum sample_collaborators)
             SpecterDecodePSBTQR.parseSegment
             "Specter Desktop segment total changed unexpectedly" 3
             ["p2of3 BBBB"; "p3of3 CCCC"; "p1of3 AAAA"] [2; 3; 1]).
    + lia.
    + reflexivity.
    + repeat constructor; reflexivity.
    + repeat constructor; lia.
    + apply (bool_decide_unpack _). reflexivity.
  - apply (segment_add_all_distinct
             (@LegacyURDecodeQR.totalSegmentNum sample_collaborators)
             (@LegacyURDecodeQR.currentSegmentNum sample_collaborators)
             LegacyURDecodeQR.parseSegment
             "UR Legacy segment total changed unexpectedly" 2
             ["UR:BYTES/2OF2/tyq/abc"; "UR:BYTES/1OF2/tyq/def"] [2; 1]).
    + lia.
    + reflexivity.
    + repeat constructor; reflexivity.
    + repeat constructor; lia.
    + apply (bool_decide_unpack _). reflexivity.
Defined.

(** ** Reading a set of slots before it is complete *)

Section PartialSets.
Context `{Collaborators}.

(** [join] refuses a set with an empty slot. *)
Lemma join_empty_slot (slots : list (option string)) :
  None ∈ slots -> SegmentSet.join slots = Raise TypeError.
Proof.
  induction slots as [|[x|] slots IH]; intros Hin.
  - by apply elem_of_nil in Hin.
  - apply elem_of_cons in Hin as [Hin|Hin]; [done|].
    cbn [SegmentSet.join]. by rewrite (IH Hin).
  - reflexivity.
Qed.

(** [join] on a set without empty slots concatenates the payloads. *)
Lemma join_full (slots : list (option string)) :
  None ∉ slots -> exists j, SegmentSet.join slots = Ok j.
Proof.
  induction slots as [|[x|] slots IH]; intros Hin.
  - by exists "".
  - apply not_elem_of_cons in Hin as [_ Hin].
    destruct (IH Hin) as [j Hj]. exists (x ++ j).
    cbn [SegmentSet.join]. by rewrite Hj.
  - exfalso. apply Hin. by left.
Qed.

(** On a set of slots of which one is still empty, the wallet decoder's
    [validateJson], [validateWalletDescriptor], [getWalletDescriptor] and
    the Specter PSBT decoder's [getBase64Data] and [getData] raise
    TypeError: they join the slots before they look at anything else.
    The Legacy UR decoder's [getData] tests the completion flag first and
    returns [None]. *)
Theorem partial_set_accessors (self : SegmentSet.t) :
  None ∈ SegmentSet.segments self ->
  SpecterDecodeWalletQR.validateJson self = Raise TypeError /\
  SpecterDecodeWalletQR.validateWalletDescriptor self = Raise TypeError /\
  SpecterDecodeWalletQR.getWalletDescriptor self = Raise TypeError /\
  SpecterDecodePSBTQR.getBase64Data self = Raise TypeError /\
  SpecterDecodePSBTQR.getData self = Raise TypeError /\
  (SegmentSet.complete self = false -> LegacyURDecodeQR.getData self = Ok None).
Proof.
  intros Hin. pose proof (join_empty_slot _ Hin) as Hjoin.
  unfold SpecterDecodeWalletQR.getWalletDescriptor,
    SpecterDecodeWalletQR.validateWalletDescriptor,
    SpecterDecodeWalletQR.validateJson,
    SpecterDecodePSBTQR.getData, SpecterDecodePSBTQR.getBase64Data,
    LegacyURDecodeQR.getData.
  rewrite Hjoin. cbn [mbind res_bind].
  repeat split. by intros ->.
Qed.

(** A frame that a new wallet decoder answers with PART_COMPLETE leaves
    an empty slot behind. *)
Lemma wallet_first_frame_leaves_empty_slot (segment : string) (self' : SegmentSet.t) :
  SpecterDecodeWalletQR.add segment SegmentSet.init = (Ok PART_COMPLETE, self') ->
  None ∈ SegmentSet.segments self'.
Proof.
  unfold SpecterDecodeWalletQR.add, mbind, M_bind, get, lift, modify, raise, mret, M_ret.
  cbn [SegmentSet.total_segments SegmentSet.init].
  destruct (SpecterDecodeWalletQR.totalSegmentNum segment) as [[n|]|e]; [|done|done].
  destruct (SpecterDecodeWalletQR.currentSegmentNum segment) as [[c|]|e]; [|done|done].
  cbv [SegmentSet.set_segments SegmentSet.set_total_segments
       SegmentSet.set_collected_segments SegmentSet.set_complete
       SegmentSet.segments SegmentSet.total_segments
       SegmentSet.collected_segments SegmentSet.complete SegmentSet.init].
  unfold py_getitem, py_setitem, mbind, res_bind.
  destruct (py_position _ (c - 1)) as [j|e] eqn:Hpos; [|done].
  destruct (SegmentSet.empty_slots n !! j) as [[x|]|] eqn:Hslot; [done| |done].
  apply lookup_lt_Some in Hslot. unfold SegmentSet.empty_slots in *.
  rewrite length_replicate in Hslot.
  destruct (decide (n = 1)) as [->|Hn].
  - rewrite bool_decide_true by reflexivity.
    destruct (SpecterDecodeWalletQR.validateWalletDescriptor _) as [v|e]; [|done].
    by destruct (bool_decide (v = Some true)).
  - rewrite bool_decide_false by (intros E; injection E; lia). intros [= <-].
    apply list_elem_of_lookup. exists (if decide (j = 0%nat) then 1%nat else 0%nat).
    rewrite list_lookup_insert_ne by (destruct (decide (j = 0%nat)); lia).
    apply lookup_replicate_2. destruct (decide (j = 0%nat)); lia.
Qed.

(** After the first frame of a wallet descriptor that comes in several
    frames (the session answered PART_COMPLETE), asking the decoder for the
    descriptor raises TypeError: it does not return [None]. *)
Theorem getWalletDescriptor_after_first_frame (segment : string) (self' : SegmentSet.t) :
  SpecterDecodeWalletQR.add segment SegmentSet.init = (Ok PART_COMPLETE, self') ->
  SegmentSet.complete self' = false /\
  SpecterDecodeWalletQR.getWalletDescriptor self' = Raise TypeError.
Proof.
  intros Hadd. split.
  - revert Hadd.
    unfold SpecterDecodeWalletQR.add, mbind, M_bind, get, lift, modify, raise, mret, M_ret.
    cbn [SegmentSet.total_segments SegmentSet.init].
    destruct (SpecterDecodeWalletQR.totalSegmentNum segment) as [[n|]|e]; [|done|done].
    destruct (SpecterDecodeWalletQR.currentSegmentNum segment) as [[c|]|e]; [|done|done].
    destruct (py_getitem _ _) as [[x|]|e]; [done| |done].
    destruct (py_setitem _ _ _) as [slots|e]; [|done].
    destruct (bool_decide _).
    + destruct (SpecterDecodeWalletQR.validateWalletDescriptor _) as [v|e]; [|done].
      by destruct (bool_decide (v = Some true)).
    + by intros [= <-].
  - apply partial_set_accessors.
    by apply (wallet_first_frame_leaves_empty_slot segment).
Qed.

End PartialSets.

Lemma partial_set_accessors_witness :
  let self :=
    {| SegmentSet.total_segments := Some 2; SegmentSet.collected_segments := 1;
       SegmentSet.complete := false; SegmentSet.segments := [Some "{"; None] |} in
  @SpecterDecodeWalletQR.validateJson sample_collaborators self = Raise TypeError /\
  @SpecterDecodeWalletQR.validateWalletDescriptor sample_collaborators self
    = Raise TypeError /\
  @SpecterDecodeWalletQR.getWalletDescriptor sample_collaborators self
    = Raise TypeError /\
  @SpecterDecodePSBTQR.getBase64Data self = Raise TypeError /\
  @SpecterDecodePSBTQR.getData self = Raise TypeError /\
  (SegmentSet.complete self = false ->
   @LegacyURDecodeQR.getData sample_collaborators self = Ok None).
Proof.
  intros self. apply (@partial_set_accessors sample_collaborators self).
  apply list_elem_of_further, list_elem_of_here.
Defined.

Lemma getWalletDescriptor_after_first_frame_witness :
  let self' :=
    snd (@SpecterDecodeWalletQR.add sample_collaborators "p1of2 {x" SegmentSet.init) in
  SegmentSet.complete self' = false /\
  @SpecterDecodeWalletQR.getWalletDescriptor sample_collaborators self' = Raise TypeError.
Proof.
  intros self'.
  apply (@getWalletDescriptor_after_first_frame sample_collaborators "p1of2 {x" self').
  vm_compute. reflexivity.
Defined.

(** ** Base64 texts: classification and round trip *)

Section Base64Facts.

Lemma ord_inj (a b : ascii) : ord a = ord b -> a = b.
Proof.
  unfold ord. intros E. apply N2Z.inj in E.
  rewrite <- (ascii_N_embedding a), <- (ascii_N_embedding b). by rewrite E.
Qed.

Lemma encode_ascii_ok (s : string) (v : bytes) :
  encode_ascii s = Ok v -> v = map ord (list_ascii_of_string s).
Proof.
  revert v. induction s as [|c s IH]; intros v; cbn [encode_ascii list_ascii_of_string map].
  - by intros [= <-].
  - destruct (ord c <? 128); [|done]. unfold mbind, res_bind.
    destruct (encode_ascii s) as [w|]; [|done].
    intros [= <-]. by rewrite (IH w).
Qed.

Lemma all_chars_app (p : ascii -> bool) (a b : string) :
  all_chars p (a ++ b) = all_chars p a && all_chars p b.
Proof.
  induction a as [|c a IH]; [done|].
  change (String c a ++ b) with (String c (a ++ b)).
  cbn [all_chars]. by rewrite IH, andb_assoc.
Qed.

Lemma span_app (p : ascii -> bool) (s a b : string) :
  span p s = (a, b) -> s = a ++ b.
Proof.
  revert a b. induction s as [|c s IH]; intros a b; cbn [span].
  - by intros [= <- <-].
  - destruct (p c).
    + destruct (span p s) as [a' b'] eqn:E. intros [= <- <-].
      change (String c a' ++ b') with (String c (a' ++ b')).
      f_equal. by apply IH.
    + by intros [= <- <-].
Qed.

(** Every character of the table is of the class of the Specter
    pattern, and so is the pad. *)
Lemma b64_char_class (i : Z) : is_b64_or_pad (b64_char i) = true.
Proof.
  unfold b64_char.
  assert (Hlt : (Z.to_nat (Z.land i 63) < 64)%nat).
  { assert (0 <= Z.land i 63 < 64); [|lia].
    change 63 with (Z.ones 6). rewrite Z.land_ones by lia.
    apply Z.mod_pos_bound. lia. }
  revert Hlt. generalize (Z.to_nat (Z.land i 63)) as n. intros n Hlt.
  do 64 (destruct n as [|n]; [reflexivity|]). lia.
Qed.

Lemma b64encode_class (data : bytes) :
  all_chars is_b64_or_pad (b64encode data) = true.
Proof.
  assert (Hn : forall (n : nat) (data : bytes),
             (length data <= n)%nat ->
             all_chars is_b64_or_pad (b64encode data) = true);
    [|by apply (Hn (length data))].
  induction n as [|n IH]; intros [|a [|b [|c r]]] Hlen;
    cbn [b64encode all_chars]; rewrite ?b64_char_class; try reflexivity;
    cbn [length] in Hlen; try lia.
  cbn [andb]. apply IH. lia.
Qed.

(** A text that [isBase64] accepts is the encoding of what it decodes
    to. *)
Lemma isBase64_roundtrip `{Collaborators} (s : string) :
  isBase64 s = true -> exists data, b64decode s = Ok data /\ b64encode data = s.
Proof.
  unfold isBase64, try_except, mbind, res_bind.
  destruct (b64decode s) as [data|]; [|done].
  destruct (encode_ascii s) as [v|] eqn:Hv; [|done].
  apply encode_ascii_ok in Hv. subst v.
  unfold bytes_eqb. intros E. apply bool_decide_eq_true in E.
  exists data. split; [done|].
  rewrite <- (string_of_list_ascii_of_string (b64encode data)),
          <- (string_of_list_ascii_of_string s).
  f_equal. revert E.
  generalize (list_ascii_of_string (b64encode data)) as l1.
  generalize (list_ascii_of_string s) as l2.
  induction l2 as [|x l2 IH]; intros [|y l1]; cbn; try done.
  intros [= Hxy Hrest]. f_equal; [by apply ord_inj|by apply IH].
Qed.

Lemma isBase64_class `{Collaborators} (s : string) :
  isBase64 s = true -> all_chars is_b64_or_pad s = true.
Proof.
  intros Hs. destruct (isBase64_roundtrip s Hs) as (data & _ & <-).
  apply b64encode_class.
Qed.

Lemma class_not_colon (c : ascii) :
  is_b64_or_pad c = true -> eqb_ci ":" c = false /\ Ascii.eqb c " " = false.
Proof.
  destruct c as [[] [] [] [] [] [] [] []]; vm_compute; intros E;
    first [discriminate E | split; reflexivity].
Qed.

(** A text of the class starts with neither of the two UR prefixes. *)
Lemma class_not_ur (s : string) :
  all_chars is_b64_or_pad s = true ->
  prefix_ci "UR:CRYPTO-PSBT/" s = false /\ prefix_ci "UR:BYTES/" s = false.
Proof.
  destruct s as [|c1 [|c2 [|c3 s]]]; try (by intros; split; cbn; rewrite ?andb_false_r).
  cbn [all_chars]. intros E.
  apply andb_true_iff in E as [_ E]. apply andb_true_iff in E as [_ E].
  apply andb_true_iff in E as [E _]. apply class_not_colon in E as [E _].
  split; cbn [prefix_ci]; rewrite E; by rewrite !andb_false_r.
Qed.

(** A text of the class has no blank, so the frame pattern of Specter
    does not match it. *)
Lemma class_not_pXofY (s : string) :
  all_chars is_b64_or_pad s = true -> match_pXofY s = None.
Proof.
  intros Hs. unfold match_pXofY.
  destruct s as [|c r]; [done|]. destruct (eqb_ci c "p"); [|done].
  destruct (span is_digit r) as [d1 r1] eqn:E1.
  destruct r1 as [|o [|f r2]]; try done.
  destruct (nonempty d1 && eqb_ci o "o" && eqb_ci f "f"); [|done].
  destruct (span is_digit r2) as [d2 r3] eqn:E2.
  destruct r3 as [|b r4]; [done|].
  destruct (nonempty d2); [|done]. cbn [andb].
  destruct (Ascii.eqb b " ") eqn:Eb; [|done]. exfalso.
  apply span_app in E1, E2. subst r r2.
  cbn [all_chars] in Hs. apply andb_true_iff in Hs as [_ Hs].
  rewrite all_chars_app in Hs. apply andb_true_iff in Hs as [_ Hs].
  cbn [all_chars] in Hs.
  apply andb_true_iff in Hs as [_ Hs]. apply andb_true_iff in Hs as [_ Hs].
  rewrite all_chars_app in Hs. apply andb_true_iff in Hs as [_ Hs].
  cbn [all_chars] in Hs. apply andb_true_iff in Hs as [Hs _].
  apply class_not_colon in Hs as [_ Hs]. congruence.
Qed.

End Base64Facts.

Section Base64Session.
Context `{Collaborators} `{Constants}.

(** A text that [isBase64] accepts and whose bytes the PSBT parser
    accepts is classified as PSBTBASE64, with any wordlist or none: none
    of the three checks that come first matches a Base64 text. *)
Theorem base64_psbt_classified
    (s : string) (wordlist : option (list string)) (data : bytes) (p : PSBT) :
  isBase64 s = true ->
  b64decode s = Ok data ->
  PSBT_parse data = Ok p ->
  SegmentType s wordlist = Ok PSBTBASE64.
Proof.
  intros Hs Hdata Hp.
  pose proof (isBase64_class s Hs) as Hclass.
  destruct (class_not_ur s Hclass) as [Hur2 Hur].
  unfold SegmentType. rewrite Hur2, Hur.
  unfold match_specter_psbt. rewrite (class_not_pXofY s Hclass).
  cbn [mbind option_bind]. rewrite bool_decide_false by (intros [? ?]; done).
  unfold isBase64PSBT. rewrite Hs.
  unfold b64decode in Hdata. rewrite Hdata. cbn [mbind res_bind].
  by rewrite Hp.
Qed.

(** Such a text, given to a new session, is answered with COMPLETE; the
    session is complete, its decoded bytes are the Base64 decoding of the
    text, its parsed PSBT is what the parser made of them, and encoding
    the bytes again gives the text back. *)
Theorem base64_psbt_session
    (s : string) (wl : list string) (data : bytes) (p : PSBT) :
  isBase64 s = true ->
  b64decode s = Ok data ->
  PSBT_parse data = Ok p ->
  exists self',
    DecodeQR.addString (Some s) (fresh_session wl) = (Ok COMPLETE, self') /\
    DecodeQR.complete self' = true /\
    DecodeQR.qr_type self' = Some PSBTBASE64 /\
    DecodeQR.getDataPSBT self' = Ok (Some data) /\
    DecodeQR.getPSBT self' = Ok (Some p) /\
    DecodeQR.getBase64PSBT self' = Ok (Some s).
Proof.
  intros Hs Hdata Hp.
  pose proof (base64_psbt_classified s (Some wl) data p Hs Hdata Hp) as Hty.
  destruct (isBase64_roundtrip s Hs) as (data' & Hdata' & Henc).
  assert (data' = data) as -> by congruence.
  eexists. split.
  - unfold DecodeQR.addString, DecodeQR.mirror, DecodeQR.call, Base64DecodeQR.add,
      mbind, M_bind, get, lift, modify, mret, M_ret.
    cbn [DecodeQR.wordlist DecodeQR.qr_type fresh_session].
    rewrite Hty. cbn [DecodeQR.set_qr_type DecodeQR.qr_type DecodeQR.base64_qr].
    rewrite Hs. rewrite bool_decide_true by done. reflexivity.
  - unfold DecodeQR.getDataPSBT, DecodeQR.getPSBT, DecodeQR.getBase64PSBT,
      Base64DecodeQR.getData, Base64DecodeQR.getBase64Data.
    cbn. unfold b64decode in Hdata. rewrite Hdata. cbn. rewrite Hp, Henc. cbn.
    by repeat split.
Qed.

End Base64Session.

Lemma base64_psbt_classified_witness :
  @SegmentType sample_collaborators "cHNidP8=" None = Ok PSBTBASE64.
Proof.
  apply (@base64_psbt_classified sample_collaborators "cHNidP8=" None
           [112; 115; 98; 116; 255] [112; 115; 98; 116; 255]); reflexivity.
Defined.

Lemma base64_psbt_session_witness :
  exists self',
    @DecodeQR.addString sample_collaborators sample_constants (Some "cHNidP8=")
      (@fresh_session sample_collaborators sample_wordlist) = (Ok COMPLETE, self') /\
    DecodeQR.complete self' = true /\
    DecodeQR.qr_type self' = Some PSBTBASE64 /\
    @DecodeQR.getDataPSBT sample_collaborators self' = Ok (Some [112; 115; 98; 116; 255]) /\
    @DecodeQR.getPSBT sample_collaborators self' = Ok (Some [112; 115; 98; 116; 255]) /\
    @DecodeQR.getBase64PSBT sample_collaborators self' = Ok (Some "cHNidP8=").
Proof.
  apply (@base64_psbt_session sample_collaborators sample_constants "cHNidP8="
           sample_wordlist [112; 115; 98; 116; 255] [112; 115; 98; 116; 255]);
    reflexivity.
Defined.

(** ** The translation of the settings *)

Section SettingsFacts.
Context `{Constants}.

Lemma mapM_option_None {A B} (f : A -> option B) (l : list A) :
  Exists (fun x => f x = None) l -> mapM f l = None.
Proof.
  induction 1 as [x l Hx|x l _ IH]; cbn [mapM].
  - by rewrite Hx.
  - rewrite IH. by destruct (f x).
Qed.

(** A call of [convert_abbreviated_value] touches its own key and its
    category, and no other key. *)
Lemma convert_lookup_other
    (category key : string) (abbreviation_map : list (string * string))
    (is_list : bool) (new_key_name : option string)
    (settings : gmap string SettingsQR.entry) (k : string) :
  k <> key -> k <> category ->
  SettingsQR.convert_abbreviated_value category key abbreviation_map is_list
    new_key_name settings !! k
  = settings !! k.
Proof.
  intros Hkey Hcat. unfold SettingsQR.convert_abbreviated_value.
  destruct (settings !! key) as [[value|members]|]; try done.
  destruct (if negb is_list then _ else _) as [new_value|]; [|done].
  destruct (delete key settings !! category) as [e|] eqn:Hc.
  - rewrite Hc. destruct e as [v|members].
    + by rewrite lookup_delete_ne.
    + rewrite lookup_insert_ne by done. by rewrite lookup_delete_ne.
  - rewrite lookup_insert_eq. rewrite lookup_insert_ne by done.
    rewrite lookup_insert_ne by done. by rewrite lookup_delete_ne.
Qed.

(** A call whose value is not translated changes nothing. *)
Lemma convert_untranslated
    (category key : string) (abbreviation_map : list (string * string))
    (is_list : bool) (new_key_name : option string)
    (settings : gmap string SettingsQR.entry) (value : string) :
  settings !! key = Some (SettingsQR.Raw value) ->
  untranslated abbreviation_map is_list value ->
  SettingsQR.convert_abbreviated_value category key abbreviation_map is_list
    new_key_name settings
  = settings.
Proof.
  intros Hkey Hun. unfold SettingsQR.convert_abbreviated_value. rewrite Hkey.
  unfold untranslated in Hun. destruct is_list; cbn [negb].
  - by rewrite (mapM_option_None _ _ Hun).
  - by rewrite Hun.
Qed.

(** In the flat mapping of a settings frame, an entry of one of the eight
    translated keys whose value its abbreviation map does not translate is
    still there after all eight translations, under its abbreviated key
    and with its raw value. *)
Theorem convert_all_keeps_untranslated
    (settings : gmap string SettingsQR.entry)
    (category key : string) (abbreviation_map : list (string * string))
    (is_list : bool) (new_key_name : option string) (value : string) :
  (category, key, abbreviation_map, is_list, new_key_name) ∈ conversions ->
  settings !! key = Some (SettingsQR.Raw value) ->
  untranslated abbreviation_map is_list value ->
  SettingsQR.convert_all settings !! key = Some (SettingsQR.Raw value).
Proof.
  intros Hcall Hkey Hun. unfold conversions in Hcall.
  repeat (apply elem_of_cons in Hcall as [Hcall|Hcall];
          [injection Hcall as -> -> -> -> ->;
           unfold SettingsQR.convert_all;
           repeat first
             [ rewrite convert_lookup_other by done
             | rewrite (convert_untranslated _ _ _ _ _ _ value) by
                 (first [done | by rewrite ?convert_lookup_other by done]) ];
           exact Hkey|]).
  by apply elem_of_nil in Hcall.
Qed.

End SettingsFacts.

Lemma convert_all_keeps_untranslated_witness :
  @SettingsQR.convert_all sample_constants
    {[ "coord" := SettingsQR.Raw "bw,zz"; "xpub" := SettingsQR.Raw "1" ]} !! "coord"
  = Some (SettingsQR.Raw "bw,zz").
Proof.
  apply (@convert_all_keeps_untranslated sample_constants _ "wallet" "coord"
           (@SettingsQR.map_abbreviated_coordinators sample_constants) true
           (Some "coordinators") "bw,zz").
  - apply list_elem_of_here.
  - reflexivity.
  - apply Exists_cons_tl, Exists_cons_hd. reflexivity.
Defined.

Section SettingsAdd.
Context `{Constants}.

Lemma py_split_nonempty (sep : ascii) (s : string) :
  exists w ws, py_split sep s = w :: ws.
Proof.
  induction s as [|c s (w & ws & IH)]; cbn [py_split]; [by eauto|].
  destruct (Ascii.eqb c sep); [by eauto|]. rewrite IH. by eauto.
Qed.

(** One round of the loop over the entries. *)
Lemma parse_entries_cons (e : string) (r : list string) (self : SettingsQR.t) :
  SettingsQR.parse_entries (e :: r) self
  = match entry_value e with
    | Ok v =>
        SettingsQR.parse_entries r
          (SettingsQR.set_settings
             (<[entry_key e := SettingsQR.Raw v]> (SettingsQR.settings self)) self)
    | Raise x => (Raise x, self)
    end.
Proof.
  cbn [SettingsQR.parse_entries].
  unfold entry_value, entry_key, mbind, M_bind, lift, modify.
  destruct (py_split_nonempty "=" e) as (w & ws & ->).
  cbn [hd]. change (py_getitem (w :: ws) 0) with (Ok w).
  cbn [fmap res_fmap]. by destruct (py_getitem (w :: ws) 1).
Qed.

(** Entries with other keys leave a key as it is. *)
Lemma parse_entries_other (key : string) (entries : list string) :
  Forall (fun e => entry_key e <> key) entries ->
  forall self self',
    SettingsQR.parse_entries entries self = (Ok tt, self') ->
    SettingsQR.settings self' !! key = SettingsQR.settings self !! key.
Proof.
  induction 1 as [|e entries He _ IH]; intros self self'.
  - by intros [= <-].
  - rewrite parse_entries_cons. destruct (entry_value e) as [v|]; [|done].
    intros Hrest. rewrite (IH _ _ Hrest).
    cbn [SettingsQR.settings SettingsQR.set_settings].
    by rewrite lookup_insert_ne.
Qed.

(** The last entry of a key decides its value. *)
Lemma parse_entries_last (pre post : list string) (e v : string) :
  entry_value e = Ok v ->
  Forall (fun e' => entry_key e' <> entry_key e) post ->
  forall self self',
    SettingsQR.parse_entries (pre ++ e :: post) self = (Ok tt, self') ->
    SettingsQR.settings self' !! entry_key e = Some (SettingsQR.Raw v).
Proof.
  intros Hv Hpost. induction pre as [|e0 pre IH]; intros self self'; cbn [app].
  - rewrite parse_entries_cons, Hv. intros Hrest.
    rewrite (parse_entries_other _ _ Hpost _ _ Hrest).
    cbn [SettingsQR.settings SettingsQR.set_settings].
    by rewrite lookup_insert_eq.
  - rewrite parse_entries_cons. destruct (entry_value e0); [|done]. apply IH.
Qed.

(** What a Complete decode went through: the loop read every entry, the
    version entry is a non-empty text that [int()] reads as 1, and the
    settings are the translation of what the loop read without the
    entries [type], [version] and [name]. *)
Lemma SettingsQR_add_complete
    (segment : string) (qr_type : QRType) (self self' : SettingsQR.t) :
  SettingsQR.add segment qr_type self = (Ok COMPLETE, self') ->
  exists flat v,
    SettingsQR.parse_entries (py_split " " segment) (SettingsQR.set_settings ∅ self)
      = (Ok tt, flat) /\
    SettingsQR.settings flat !! "version" = Some (SettingsQR.Raw v) /\
    nonempty v = true /\ py_int v = Ok 1 /\
    SettingsQR.settings self'
      = SettingsQR.convert_all
          (delete "name" (delete "version" (delete "type" (SettingsQR.settings flat)))) /\
    SettingsQR.complete self' = true.
Proof.
  unfold SettingsQR.add, try_catch, SettingsQR.pop, mbind, M_bind, get, lift,
    modify, raise, mret, M_ret.
  destruct (SettingsQR.parse_entries _ _) as [[[]|e] flat] eqn:Hparse; [|done].
  cbn [SettingsQR.settings SettingsQR.set_settings].
  rewrite lookup_delete_ne by done.
  destruct (SettingsQR.settings flat !! "version") as [[v|m]|] eqn:Hversion;
    cbn [SettingsQR.raw_text]; [|done|done].
  destruct (nonempty v) eqn:Hne; cbn [negb]; [|done].
  destruct (py_int v) as [n|] eqn:Hint; [|done].
  destruct (decide (n = 1)) as [->|Hn1].
  2:{ rewrite bool_decide_true by done. done. }
  rewrite bool_decide_false by (intros E; by apply E).
  cbn [SettingsQR.settings SettingsQR.set_settings SettingsQR.set_config_name].
  intros Hend. exists flat, v. split; [done|]. split; [done|]. split; [done|].
  split; [done|].
  destruct (SettingsQR.raw_text _) as [name|]; [destruct (nonempty name)|];
    injection Hend as <-; by split.
Qed.

(** In a Complete settings decode, the last [key=value] entry of one of
    the eight translated keys whose value its abbreviation map does not
    translate is in the result under its abbreviated key, with its raw
    value. *)
Theorem SettingsQR_add_keeps_untranslated
    (segment : string) (qr_type : QRType) (self self' : SettingsQR.t)
    (pre post : list string) (e value : string)
    (category : string) (abbreviation_map : list (string * string))
    (is_list : bool) (new_key_name : option string) :
  SettingsQR.add segment qr_type self = (Ok COMPLETE, self') ->
  py_split " " segment = (pre ++ e :: post)%list ->
  Forall (fun e' => entry_key e' <> entry_key e) post ->
  entry_value e = Ok value ->
  (category, entry_key e, abbreviation_map, is_list, new_key_name) ∈ conversions ->
  untranslated abbreviation_map is_list value ->
  SettingsQR.settings self' !! entry_key e = Some (SettingsQR.Raw value).
Proof.
  intros Hadd Hsplit Hpost Hvalue Hcall Hun.
  destruct (SettingsQR_add_complete _ _ _ _ Hadd)
    as (flat & v & Hparse & _ & _ & _ & -> & _).
  rewrite Hsplit in Hparse.
  pose proof (parse_entries_last pre post e value Hvalue Hpost _ _ Hparse) as Hflat.
  apply (convert_all_keeps_untranslated _ category _ abbreviation_map is_list
           new_key_name value Hcall); [|exact Hun].
  assert (Hkeys : entry_key e <> "name" /\ entry_key e <> "version" /\
                  entry_key e <> "type").
  { clear -Hcall. unfold conversions in Hcall.
    repeat (apply elem_of_cons in Hcall as [Hcall|Hcall];
            [injection Hcall as _ -> _ _ _; by repeat split|]).
    by apply elem_of_nil in Hcall. }
  destruct Hkeys as (Hname & Hversion & Htype).
  by rewrite !lookup_delete_ne by done.
Qed.

(** [SettingsQR.add] never raises: what its body raises is caught and
    answered with Invalid.  A frame without a [version] entry is Invalid,
    and so is a frame whose last [version] entry is not read as 1 by
    [int()]. *)
Theorem SettingsQR_add_version
    (segment : string) (qr_type : QRType) (self : SettingsQR.t) :
  (fst (SettingsQR.add segment qr_type self) = Ok COMPLETE \/
   fst (SettingsQR.add segment qr_type self) = Ok INVALID_STATUS) /\
  (Forall (fun e => entry_key e <> "version") (py_split " " segment) ->
   fst (SettingsQR.add segment qr_type self) = Ok INVALID_STATUS) /\
  (forall pre post e v,
      py_split " " segment = (pre ++ e :: post)%list ->
      entry_key e = "version" ->
      Forall (fun e' => entry_key e' <> "version") post ->
      entry_value e = Ok v ->
      py_int v <> Ok 1 ->
      fst (SettingsQR.add segment qr_type self) = Ok INVALID_STATUS).
Proof.
  assert (Htotal : fst (SettingsQR.add segment qr_type self) = Ok COMPLETE \/
                   fst (SettingsQR.add segment qr_type self) = Ok INVALID_STATUS).
  { unfold SettingsQR.add, try_catch.
    destruct (_ ≫= _) as [[[]|e] s] eqn:E; try (by right); try (by left).
    all: revert E; unfold SettingsQR.pop, mbind, M_bind, get, lift, modify, raise,
           mret, M_ret;
         repeat case_match; try done; intros [= ? ?]; try done. }
  split; [exact Htotal|]. split.
  - intros Hnone. destruct Htotal as [Hc|Hi]; [|exact Hi]. exfalso.
    destruct (SettingsQR.add segment qr_type self) as [st self'] eqn:Hadd.
    cbn in Hc. subst st.
    destruct (SettingsQR_add_complete _ _ _ _ Hadd) as (flat & v & Hparse & Hv & _).
    rewrite (parse_entries_other "version" _ Hnone _ _ Hparse) in Hv.
    cbn in Hv. by rewrite lookup_empty in Hv.
  - intros pre post e v Hsplit Hkey Hpost Hvalue Hint.
    destruct Htotal as [Hc|Hi]; [|exact Hi]. exfalso.
    destruct (SettingsQR.add segment qr_type self) as [st self'] eqn:Hadd.
    cbn in Hc. subst st.
    destruct (SettingsQR_add_complete _ _ _ _ Hadd)
      as (flat & v' & Hparse & Hv & _ & Hint' & _).
    rewrite Hsplit in Hparse. rewrite <- Hkey in Hpost.
    pose proof (parse_entries_last pre post e v Hvalue Hpost _ _ Hparse) as Hlast.
    rewrite Hkey in Hlast. congruence.
Qed.

End SettingsAdd.

Lemma SettingsQR_add_keeps_untranslated_witness :
  SettingsQR.settings
    (snd (@SettingsQR.add sample_constants "type=settings version=1 xpub=7 coord=bw"
            SETTINGS SettingsQR.init)) !! "xpub"
  = Some (SettingsQR.Raw "7").
Proof.
  apply (@SettingsQR_add_keeps_untranslated sample_constants
           "type=settings version=1 xpub=7 coord=bw" SETTINGS SettingsQR.init
           (snd (@SettingsQR.add sample_constants
                   "type=settings version=1 xpub=7 coord=bw" SETTINGS SettingsQR.init))
           ["type=settings"; "version=1"] ["coord=bw"] "xpub=7" "7"
           "features" (@SettingsQR.map_abbreviated_enable sample_constants) false
           (Some "xpub_export")).
  - vm_compute. reflexivity.
  - reflexivity.
  - repeat constructor. vm_compute. discriminate.
  - reflexivity.
  - apply list_elem_of_further, list_elem_of_here.
  - reflexivity.
Defined.

Lemma SettingsQR_add_version_witness :
  fst (@SettingsQR.add sample_constants "type=settings name=Wallet" SETTINGS
         SettingsQR.init) = Ok INVALID_STATUS /\
  fst (@SettingsQR.add sample_constants "type=settings version=2 xpub=1" SETTINGS
         SettingsQR.init) = Ok INVALID_STATUS.
Proof.
  split.
  - apply (@SettingsQR_add_version sample_constants "type=settings name=Wallet"
             SETTINGS SettingsQR.init).
    repeat constructor; vm_compute; discriminate.
  - apply (proj2 (proj2 (@SettingsQR_add_version sample_constants
             "type=settings version=2 xpub=1" SETTINGS SettingsQR.init))
             ["type=settings"] ["xpub=1"] "version=2" "2").
    + reflexivity.
    + reflexivity.
    + repeat constructor. vm_compute. discriminate.
    + reflexivity.
    + vm_compute. discriminate.
Defined.

(** ** Base43: which texts decode, and to what *)

Section Base43Laws.

(** A character of the alphabet. *)
Local Abbreviation in_alphabet c := (negb (bytes_find c base43_table =? -1)).

Lemma bytes_find_elem_of (c : Z) (chars : bytes) :
  bytes_find c chars <> -1 -> c ∈ chars.
Proof.
  induction chars as [|d chars IH]; cbn [bytes_find]; [done|].
  destruct (Z.eqb_spec d c) as [->|_]; [intros _; by left|].
  destruct (Z.eqb_spec (bytes_find c chars) (-1)); [done|].
  intros _. right. by apply IH.
Qed.

(** The characters of the alphabet are ASCII. *)
Lemma alphabet_is_ascii (c : Z) : bytes_find c base43_table <> -1 -> c < 128.
Proof.
  intros Hc. apply bytes_find_elem_of in Hc.
  assert (Hall : Forall (fun c => c < 128) base43_table).
  { apply Forall_forall. intros x Hx. apply (bool_decide_unpack _).
    revert x Hx. apply Forall_forall. apply (bool_decide_unpack _).
    vm_compute. reflexivity. }
  by apply (proj1 (Forall_forall _ _) Hall).
Qed.

(** The sum of the digits exists exactly when every byte is a digit. *)
Lemma base43_accumulate_ok (v : bytes) :
  forall long_value power_of_base,
    (exists n, base43_accumulate base43_table v long_value power_of_base = Ok n) <->
    Forall (fun c => bytes_find c base43_table <> -1) v.
Proof.
  induction v as [|c v IH]; intros lv pw; cbn [base43_accumulate].
  - split; [constructor|by eauto].
  - destruct (Z.eqb_spec (bytes_find c base43_table) (-1)) as [E|E].
    + split; [by intros [n Hn]|]. intros Hall. by apply Forall_cons in Hall as [? _].
    + rewrite IH. split; [by constructor|]. intros Hall.
      by apply Forall_cons in Hall as [_ ?].
Qed.

Lemma encode_ascii_Forall (s : string) :
  (exists v, encode_ascii s = Ok v) <-> all_chars (fun c => ord c <? 128) s = true.
Proof.
  induction s as [|c s IH]; cbn [encode_ascii all_chars];
    [split; [done|by eauto]|].
  destruct (ord c <? 128); cbn [andb].
  - rewrite <- IH. unfold mbind, res_bind.
    destruct (encode_ascii s) as [w|]; split; intros [v Hv]; by eauto.
  - split; [by intros [v Hv]|done].
Qed.

Lemma alphabet_digits (s : string) :
  all_chars (fun c => in_alphabet (ord c)) s = true <->
  Forall (fun c => bytes_find c base43_table <> -1) (map ord (list_ascii_of_string s)).
Proof.
  induction s as [|c s IH]; cbn [list_ascii_of_string map all_chars].
  - split; [constructor|done].
  - rewrite andb_true_iff, Forall_cons, IH, negb_true_iff, Z.eqb_neq. reflexivity.
Qed.

Lemma alphabet_ascii (s : string) :
  all_chars (fun c => in_alphabet (ord c)) s = true ->
  all_chars (fun c => ord c <? 128) s = true.
Proof.
  induction s as [|c s IH]; [done|]. cbn [all_chars].
  rewrite !andb_true_iff, negb_true_iff, Z.eqb_neq, Z.ltb_lt.
  intros [Hc Hs]. split; [by apply alphabet_is_ascii|by apply IH].
Qed.

(** [base43Decode] returns bytes exactly for the texts written in the
    alphabet; for every other text it raises. *)
Theorem base43Decode_defined (s : string) :
  (exists data, base43Decode s = Ok data) <->
  all_chars (fun c => in_alphabet (ord c)) s = true.
Proof.
  rewrite alphabet_digits. unfold base43Decode. split.
  - intros [data Hdata].
    destruct (encode_ascii s) as [v|] eqn:Hv; [|done].
    apply encode_ascii_ok in Hv. subst v. cbn [mbind res_bind] in Hdata.
    destruct (base43_accumulate base43_table (rev (map ord (list_ascii_of_string s))) 0 1)
      as [n|] eqn:Hn; [|done].
    rewrite <- (rev_involutive (map ord (list_ascii_of_string s))).
    apply Forall_rev. apply (base43_accumulate_ok _ 0 1). by exists n.
  - intros Hdigits.
    assert (Hv : exists v, encode_ascii s = Ok v).
    { apply encode_ascii_Forall, alphabet_ascii. by apply alphabet_digits. }
    destruct Hv as [v Hv]. rewrite Hv. cbn [mbind res_bind].
    apply encode_ascii_ok in Hv. subst v.
    apply Forall_rev in Hdigits.
    apply (base43_accumulate_ok _ 0 1) in Hdigits as [n Hn]. rewrite Hn.
    cbn [mbind res_bind].
    destruct (base43_while (base43_while_fuel n) n []) as [last result].
    eexists. reflexivity.
Qed.

(** The bytes the loop writes are bytes. *)
Lemma base43_while_range (fuel : nat) :
  forall long_value result,
    0 <= long_value ->
    Forall (fun b => 0 <= b < 256) result ->
    0 <= fst (base43_while fuel long_value result) /\
    Forall (fun b => 0 <= b < 256) (snd (base43_while fuel long_value result)).
Proof.
  induction fuel as [|fuel IH]; intros v acc Hv Hacc; cbn [base43_while].
  - by destruct (v <? 256).
  - destruct (v <? 256); [done|].
    apply IH; [apply Z.div_pos; lia|].
    apply Forall_app. split; [done|]. constructor; [|constructor].
    apply Z.mod_pos_bound. lia.
Qed.

(** Every byte of a decoded text is in the range of a byte: the loop
    leaves with a last value below 256. *)
Theorem base43Decode_bytes (s : string) (data : bytes) :
  base43Decode s = Ok data -> Forall (fun b => 0 <= b < 256) data.
Proof.
  unfold base43Decode, mbind, res_bind.
  destruct (encode_ascii s) as [v|]; [|done].
  destruct (base43_accumulate _ _ _ _) as [n|] eqn:Hn; [|done].
  apply base43_accumulate_nonneg in Hn; [|lia|lia].
  pose proof (base43_while_exits n [] Hn) as Hexit.
  destruct (base43_while_range (base43_while_fuel n) n [] Hn) as [Hlo Hres];
    [constructor|].
  destruct (base43_while _ n []) as [last result]. cbn [fst snd] in *.
  intros [= <-]. apply Forall_rev. apply Forall_app. split.
  - apply Forall_app. split; [done|]. constructor; [lia|constructor].
  - clear. induction (base43_nPad _ v) as [|k IH]; cbn [repeat]; constructor; [lia|done].
Qed.

Lemma base43_accumulate_snoc_zero (v : bytes) :
  forall long_value power_of_base,
    base43_accumulate base43_table (v ++ [48])%list long_value power_of_base
    = base43_accumulate base43_table v long_value power_of_base.
Proof.
  induction v as [|c v IH]; intros lv pw.
  - cbn [app base43_accumulate]. change (bytes_find 48 base43_table) with 0.
    cbn [Z.eqb]. f_equal. lia.
  - cbn [app base43_accumulate]. destruct (_ =? -1); [done|]. apply IH.
Qed.

Lemma repeat_snoc {A} (x : A) (n : nat) : (repeat x n ++ [x])%list = x :: repeat x n.
Proof. induction n as [|n IH]; [done|]. cbn. by rewrite IH. Qed.

(** A zero character in front of a text puts a zero byte in front of its
    bytes: leading zeros are preserved, one byte for each character. *)
Theorem base43Decode_leading_zero (s : string) (data : bytes) :
  base43Decode s = Ok data ->
  base43Decode (String "0" s) = Ok (0 :: data).
Proof.
  unfold base43Decode, mbind, res_bind. cbn [encode_ascii].
  change (ord "0" <? 128) with true. cbn match. unfold mbind, res_bind.
  destruct (encode_ascii s) as [v|]; [|done].
  change (ord "0") with 48. cbn [rev].
  rewrite base43_accumulate_snoc_zero.
  destruct (base43_accumulate _ _ _ _) as [n|]; [|done].
  destruct (base43_while _ n []) as [last result].
  change (nth 0 base43_table 0) with 48. cbn [base43_nPad Z.eqb Pos.eqb].
  intros [= <-]. f_equal. cbn [repeat].
  rewrite <- repeat_snoc. rewrite app_assoc, rev_app_distr. reflexivity.
Qed.

End Base43Laws.

Lemma base43Decode_bytes_witness :
  Forall (fun b => 0 <= b < 256) [52; 42; 176].
Proof. apply (base43Decode_bytes "::::"). reflexivity. Defined.

Lemma base43Decode_leading_zero_witness :
  base43Decode "0::::" = Ok [0; 52; 42; 176].
Proof. apply (base43Decode_leading_zero "::::"). reflexivity. Defined.

(** ** The address decoder *)

Section AddressFacts.

Lemma substring_whole (s : string) : substring 0 (String.length s) s = s.
Proof. induction s as [|c s IH]; [done|]. cbn. by rewrite IH. Qed.

(** What a greedy bounded repetition took, it takes again in full when it
    is all there is. *)
Lemma span_max_again (n : nat) (p : ascii -> bool) :
  forall s a b, span_max n p s = (a, b) -> span_max n p a = (a, "").
Proof.
  induction n as [|n IH]; intros s a b; cbn [span_max].
  - intros [= <- <-]. reflexivity.
  - destruct s as [|c s]; [intros [= <- <-]; reflexivity|].
    destruct (p c) eqn:Hc; [|intros [= <- <-]; reflexivity].
    destruct (span_max n p s) as [a' b'] eqn:E. intros [= <- <-].
    cbn [span_max]. rewrite Hc. by rewrite (IH s a' b' E).
Qed.

Lemma addr_prefixes_of (s p r : string) :
  (p, r) ∈ addr_prefixes s -> is_addr_prefix p.
Proof.
  unfold addr_prefixes, is_addr_prefix. intros Hin.
  apply elem_of_app in Hin as [Hin|Hin].
  { destruct (String.prefix "bc1" s); [|by apply elem_of_nil in Hin].
    apply list_elem_of_singleton in Hin. injection Hin as -> _. set_solver. }
  apply elem_of_app in Hin as [Hin|Hin].
  { destruct (String.prefix "tb1" s); [|by apply elem_of_nil in Hin].
    apply list_elem_of_singleton in Hin. injection Hin as -> _. set_solver. }
  destruct s as [|c s]; [by apply elem_of_nil in Hin|].
  apply elem_of_app in Hin as [Hin|Hin].
  - destruct (Ascii.eqb_spec c "1") as [->|_]; cbn [orb] in Hin.
    { apply list_elem_of_singleton in Hin. injection Hin as -> _. set_solver. }
    destruct (Ascii.eqb_spec c "2") as [->|_]; cbn [orb] in Hin.
    { apply list_elem_of_singleton in Hin. injection Hin as -> _. set_solver. }
    destruct (Ascii.eqb_spec c "3") as [->|_]; cbn [orb] in Hin.
    { apply list_elem_of_singleton in Hin. injection Hin as -> _. set_solver. }
    by apply elem_of_nil in Hin.
  - destruct (Ascii.eqb_spec c "m") as [->|_]; cbn [orb] in Hin.
    { apply list_elem_of_singleton in Hin. injection Hin as -> _. set_solver. }
    destruct (Ascii.eqb_spec c "n") as [->|_]; cbn [orb] in Hin.
    { apply list_elem_of_singleton in Hin. injection Hin as -> _. set_solver. }
    by apply elem_of_nil in Hin.
Qed.

Lemma prefix_empty (s : string) : String.prefix "" s = true.
Proof. by destruct s. Qed.

(** A prefix followed by a body has this prefix as its only
    alternative. *)
Lemma addr_prefixes_own (p body : string) :
  is_addr_prefix p -> addr_prefixes (p ++ body) = [(p, body)].
Proof.
  unfold is_addr_prefix. intros Hp.
  repeat (apply elem_of_cons in Hp as [->|Hp];
          [unfold addr_prefixes; cbv beta iota fix delta [String.append];
           simpl; by rewrite ?prefix_empty, ?Nat.sub_0_r, ?substring_whole|]).
  by apply elem_of_nil in Hp.
Qed.

(** What the unanchored pattern matched. *)
Lemma first_address_found (alts : list (string * string)) (a p : string) :
  first_address (fun _ => true) alts = Some (a, p) ->
  exists r body e,
    (p, r) ∈ alts /\ span_max 62 is_addr_body r = (body, e) /\
    (25 <=? String.length body)%nat = true /\ a = p ++ body.
Proof.
  induction alts as [|[p' r'] alts IH]; cbn [first_address]; [done|].
  destruct (span_max 62 is_addr_body r') as [body e] eqn:E.
  destruct (25 <=? String.length body)%nat eqn:Hlen; cbn [andb].
  - intros [= <- <-]. exists r', body, e. repeat split; try done. by left.
  - intros Hrest. destruct (IH Hrest) as (r & b & e' & Hin & ?).
    exists r, b, e'. split; [by right|done].
Qed.

Lemma type_of_prefix_known (p : string) :
  is_addr_prefix p -> exists ty, BitcoinAddressQR.type_of_prefix p = Some ty.
Proof.
  unfold is_addr_prefix. intros Hp.
  repeat (apply elem_of_cons in Hp as [->|Hp]; [by eexists|]).
  by apply elem_of_nil in Hp.
Qed.

Lemma address_recheck_at (s a p : string) :
  first_address (fun _ => true) (addr_prefixes s) = Some (a, p) ->
  match_address a = Some (a, p) /\
  exists ty, BitcoinAddressQR.type_of_prefix p = Some ty.
Proof.
  intros E.
  apply first_address_found in E as (r & body & e & Hin & Hspan & Hlen & ->).
  apply addr_prefixes_of in Hin.
  split; [|by apply type_of_prefix_known].
  unfold match_address. rewrite (addr_prefixes_own p body Hin).
  cbn [first_address]. rewrite (span_max_again _ _ _ _ _ Hspan), Hlen.
  reflexivity.
Qed.

(** What the unanchored search extracts always passes the anchored
    re-check, with the same prefix, and the prefix is one of the table. *)
Theorem address_recheck_never_fails (s a p : string) :
  search_address s = Some (a, p) ->
  match_address a = Some (a, p) /\
  exists ty, BitcoinAddressQR.type_of_prefix p = Some ty.
Proof.
  induction s as [|c s IH]; cbn [search_address].
  - destruct (first_address _ _) as [[a' p']|] eqn:E; [|done].
    intros [= -> ->]. by apply (address_recheck_at "").
  - destruct (first_address _ (addr_prefixes (String c s))) as [[a' p']|] eqn:E;
      [|exact IH].
    intros [= -> ->]. by apply (address_recheck_at (String c s)).
Qed.

(** [BitcoinAddressQR.add] in full: when the frame holds an address the
    decoder is complete with the address and a type from the table (never
    "Unknown"); when it holds none the answer is Invalid and the decoder
    is as it was.  The branch "matched but failed the re-check" is never
    taken. *)
Theorem BitcoinAddressQR_add_spec
    (segment : string) (qr_type : QRType) (self : BitcoinAddressQR.t) :
  match search_address segment with
  | Some (a, p) =>
      exists ty,
        BitcoinAddressQR.type_of_prefix p = Some ty /\
        BitcoinAddressQR.add segment qr_type self
        = (Ok COMPLETE,
           {| BitcoinAddressQR.total_segments := BitcoinAddressQR.total_segments self;
              BitcoinAddressQR.collected_segments := 1;
              BitcoinAddressQR.complete := true;
              BitcoinAddressQR.address := Some a;
              BitcoinAddressQR.address_type := Some ty |})
  | None => BitcoinAddressQR.add segment qr_type self = (Ok INVALID_STATUS, self)
  end.
Proof.
  unfold BitcoinAddressQR.add.
  destruct (search_address segment) as [[a p]|] eqn:E; [|reflexivity].
  destruct (address_recheck_never_fails segment a p E) as [Hre [ty Hty]].
  exists ty. split; [done|]. rewrite Hre.
  unfold mbind, M_bind, modify, mret, M_ret. by rewrite Hty.
Qed.

End AddressFacts.

Lemma address_recheck_never_fails_witness :
  match_address "bc1qar0srrr7xfkvy5l643lydnw9re59gtzzwf5mdq"
    = Some ("bc1qar0srrr7xfkvy5l643lydnw9re59gtzzwf5mdq", "bc1") /\
  exists ty, BitcoinAddressQR.type_of_prefix "bc1" = Some ty.
Proof.
  apply (address_recheck_never_fails
           "bitcoin:bc1qar0srrr7xfkvy5l643lydnw9re59gtzzwf5mdq?amount=1").
  reflexivity.
Defined.
